(** * pgmanager: the provisioning orchestrator and its collaborators

    A shallow embedding of the Go packages [internal/project] (the
    [Manager]), [internal/meta] (the SQLite [Store]), [internal/db] (the
    [PostgresClient]) and, of [internal/api], of the REST handler
    [Server.createDatabase], of the authentication middleware and of
    [parseDuration], followed by the properties of the create, delete,
    listing and cleanup workflows, of the invariants of the metadata and
    of the functions on names, numerals and tokens.

    Conventions of the embedding:
    - a Go [string] is a [string] (a sequence of bytes); a Go [int] or
      [int64] is a [Z]; a Go [*int] or [*time.Time] is an [option Z];
    - a Go [error] is an [option string] holding [err.Error()], [None]
      being [nil]; a Go [(T, error)] result is a [Result T];
    - [time.Time] and [time.Duration] are [Z] (nanoseconds), and the
      clock is a field of the world;
    - the SQLite file and the PostgreSQL server are explicit state; every
      driver call may fail for an outside reason, as scripted by the
      [faults] of the world, and every call of a store or client method
      is recorded in the [trace] of the world. *)

From Stdlib Require Import ZArith List String Ascii DecimalString DecimalPos DecimalZ Lia.
From Stdlib.Strings Require Import Byte.
From stdpp Require Import base list gmap strings sorting.

Local Open Scope Z_scope.
Local Open Scope string_scope.

(** ** Go results *)

Definition error : Type := option string.

Inductive Result (A : Type) : Type :=
| Ok (a : A)
| Err (msg : string).
Arguments Ok {A} a.
Arguments Err {A} msg.

Definition is_err {A} (r : Result A) : bool :=
  match r with Ok _ => false | Err _ => true end.

(** ** Pieces of the Go standard library used by the code *)

Module fmt.

(** The verb [%d] of [fmt.Sprintf] on an integer. *)
Definition d (z : Z) : string := NilZero.string_of_int (Z.to_int z).

(** The one-byte entries of [fmt]'s table of space characters
    (U+0009..U+000D and U+0020); the table's multi-byte entries are not
    covered by the byte-level model. *)
Definition isSpace (c : ascii) : bool :=
  let n := N_of_ascii c in
  ((9 <=? n)%N && (n <=? 13)%N) || (n =? 32)%N.

Definition isDigit (c : ascii) : bool :=
  let n := N_of_ascii c in (48 <=? n)%N && (n <=? 57)%N.

Definition digitVal (c : ascii) : Z := Z.of_N (N_of_ascii c) - 48.

(** [ss.SkipSpace] of a scanner made by [Sscanf] (where a newline is
    not a space): it returns the input that is left. *)
Fixpoint SkipSpace (s : string) : Result string :=
  match s with
  | EmptyString => Ok s
  | String c rest =>
      if Ascii.eqb c "010" then Err "unexpected newline"
      else if isSpace c then SkipSpace rest
      else Ok s
  end.

(** [ss.advance] on a format made of literal bytes only. *)
Fixpoint advance (format input : string) : Result string :=
  match format with
  | EmptyString => Ok input
  | String f format' =>
      match input with
      | EmptyString => Err "unexpected EOF"
      | String c rest =>
          if Ascii.eqb f c then advance format' rest
          else Err "input does not match format"
      end
  end.

(** The loop [for s.accept(digits) {}] of [ss.scanNumber]: the value
    of the decimal digits read so far, and the input that is left. *)
Fixpoint acceptDigits (acc : Z) (s : string) : Z * string :=
  match s with
  | String c rest =>
      if isDigit c then acceptDigits (10 * acc + digitVal c) rest
      else (acc, s)
  | EmptyString => (acc, s)
  end.

Definition minInt64 : Z := - 2 ^ 63.
Definition maxInt64 : Z := 2 ^ 63 - 1.

(** [ss.scanInt] for the verb [%d] into a 64-bit [int]: spaces, an
    optional sign, at least one decimal digit, then
    [strconv.ParseInt(tok, 10, 64)], which refuses a value out of
    range. What follows the digits stays in the input. *)
Definition scanInt (s : string) : Result (Z * string) :=
  match SkipSpace s with
  | Err e => Err e
  | Ok EmptyString => Err "unexpected EOF"
  | Ok (String c rest as s1) =>
      let '(neg, s2) :=
        if Ascii.eqb c "-" then (true, rest)
        else if Ascii.eqb c "+" then (false, rest)
        else (false, s1) in
      match s2 with
      | EmptyString => Err "unexpected EOF"
      | String c2 _ =>
          if isDigit c2 then
            let '(v, s3) := acceptDigits 0 s2 in
            let i := if neg then - v else v in
            if (minInt64 <=? i)%Z && (i <=? maxInt64)%Z then Ok (i, s3)
            else Err "value out of range"
          else Err "expected integer"
      end
  end.

(** [fmt.Sscanf(input, lit + "%d", &num)] for a format made of a
    literal followed by one [%d]: [doScanf] advances over the literal,
    skips spaces and scans one integer; it does not look at the input
    that follows the integer. *)
Definition Sscanf_lit_d (lit input : string) : Result Z :=
  match advance lit input with
  | Err e => Err e
  | Ok s1 =>
      match SkipSpace s1 with
      | Err e => Err e
      | Ok s2 =>
          match scanInt s2 with
          | Err e => Err e
          | Ok (num, _) => Ok num
          end
      end
  end.

End fmt.

Module strings.

Definition HasPrefix (s prefix : string) : bool := String.prefix prefix s.

Fixpoint Contains (s substr : string) : bool :=
  String.prefix substr s ||
  match s with
  | EmptyString => false
  | String _ rest => Contains rest substr
  end.

(** The slice [s[n:]] *)
Fixpoint from (n : nat) (s : string) : string :=
  match n, s with
  | S n', String _ rest => from n' rest
  | _, _ => s
  end.

Definition TrimPrefix (s prefix : string) : string :=
  if HasPrefix s prefix then from (String.length prefix) s else s.


End strings.

Module hex.

Definition hextable : string := "0123456789abcdef".

Definition digit (n : N) : ascii :=
  match String.get (N.to_nat n) hextable with
  | Some c => c
  | None => "0"%char
  end.

(** [hex.EncodeToString]: two lowercase digits per byte. *)
Fixpoint EncodeToString (src : list byte) : string :=
  match src with
  | [] => EmptyString
  | b :: rest =>
      let n := Byte.to_N b in
      String (digit (N.shiftr n 4)) (String (digit (N.land n 15)) (EncodeToString rest))
  end.

End hex.

Module strconv.


End strconv.

Module subtle.

(** [[]byte(s)] *)
Definition bytes (s : string) : list Z :=
  (λ c, Z.of_N (N_of_ascii c)) <$> list_ascii_of_string s.

(** [ConstantTimeByteEq(x, y uint8) int], which is
    [int((uint32(x^y) - 1) >> 31)] *)
Definition ConstantTimeByteEq (x y : Z) : Z :=
  Z.shiftr ((Z.lxor x y - 1) mod 2 ^ 32) 31.

(** The loop [v |= x[i] ^ y[i]] over two slices of one length *)
Fixpoint differences (v : Z) (x y : list Z) : Z :=
  match x, y with
  | a :: x', b :: y' => differences (Z.lor v (Z.lxor a b)) x' y'
  | _, _ => v
  end.

(** [ConstantTimeCompare(x, y []byte) int] *)
Definition ConstantTimeCompare (x y : list Z) : Z :=
  if negb (length x =? length y)%nat then 0
  else ConstantTimeByteEq (differences 0 x y) 0.

End subtle.

(** ** Data of the packages [config], [meta] and [project] *)

Module PostgresConfig.
Record t := { Host : string; Port : Z; User : string; Password : string;
              Database : string; SSLMode : string }.
End PostgresConfig.

(** [config.APIConfig], with the two fields the middleware reads. *)
Module APIConfig.
Record t := { Token : string; RequireToken : bool }.
End APIConfig.

Module CleanupConfig.
Record t := { DefaultTTL : Z }.
End CleanupConfig.

(** [config.Config], with the two groups the orchestrator reads. *)
Module Config.
Record t := { Postgres : PostgresConfig.t; Cleanup : CleanupConfig.t }.
End Config.

(** [meta.Project] *)
Module Project.
Record t := { ID : Z; Name : string; CreatedAt : Z }.
End Project.

(** [meta.Database] *)
Module Database.
Record t := {
  ID : Z;
  ProjectID : Z;
  Name : string;
  UserName : string;
  Password : string;
  Env : string;                (* prod, dev, staging, pr *)
  PRNumber : option Z;         (* Only set for PR databases *)
  CreatedAt : Z;
  ExpiresAt : option Z         (* TTL for PR databases *)
}.
End Database.

(** [project.DatabaseInfo] *)
Module DatabaseInfo.
Record t := {
  Project : string;
  Env : string;
  PRNumber : option Z;
  DatabaseName : string;
  UserName : string;
  Password : string;
  Host : string;
  Port : Z;
  ConnString : string;
  CreatedAt : Z;
  ExpiresAt : option Z
}.
End DatabaseInfo.

(** ** The world outside the process *)

(** The content of the SQLite file made by [Store.migrate]: the rows of
    the tables [projects] and [databases] in insertion order, and the
    AUTOINCREMENT counters of the two tables. *)
Record SQLiteDB := {
  projects : list Project.t;
  databases : list Database.t;
  seq_projects : Z;
  seq_databases : Z
}.

(** The PostgreSQL server as the client's statements see it: the login
    roles, and each database with the role that owns it. *)
Record PgServer := {
  roles : gset string;
  owners : gmap string string
}.

(** The calls made on the store and on the engine client, with whether
    they returned without error. *)
Inductive Event :=
| EvGetProject (name : string)
| EvGetDatabase (projectID : Z) (env : string) (prNumber : option Z)
| EvStoreCreateDatabase (name : string) (ok : bool)
| EvStoreDeleteDatabase (name : string) (ok : bool)
| EvGetExpiredDatabases
| EvGetDatabasesOlderThan (env : string) (olderThan : Z)
| EvPgCreateDatabase (dbName userName : string) (ok : bool)
| EvPgDropDatabase (dbName userName : string) (ok : bool).

Record World := {
  sqlite : SQLiteDB;
  server : PgServer;
  now : Z;                        (* what [time.Now()] returns *)
  faults : list (option string);  (* outcome of the driver calls to come:
                                     [Some msg] fails the call with [msg] *)
  trace : list Event              (* the calls made so far, oldest first *)
}.

Definition set_sqlite (s : SQLiteDB) (w : World) : World :=
  {| sqlite := s; server := server w; now := now w; faults := faults w; trace := trace w |}.
Definition set_server (s : PgServer) (w : World) : World :=
  {| sqlite := sqlite w; server := s; now := now w; faults := faults w; trace := trace w |}.
Definition set_faults (f : list (option string)) (w : World) : World :=
  {| sqlite := sqlite w; server := server w; now := now w; faults := f; trace := trace w |}.
Definition set_trace (t : list Event) (w : World) : World :=
  {| sqlite := sqlite w; server := server w; now := now w; faults := faults w; trace := t |}.

(** Calls thread the world. *)
Definition M (A : Type) : Type := World → A * World.

#[global] Instance M_ret : MRet M := λ A a w, (a, w).
#[global] Instance M_bind : MBind M :=
  λ A B k m w, let '(a, w1) := m w in k a w1.

(** One call into a driver ([sql.DB.Exec], [pgx.Conn.Exec], ...): it
    takes its outcome from the script; a script that ran out means no
    more outside failures. *)
Definition driver : M error :=
  λ w, match faults w with
       | [] => (None, w)
       | f :: rest => (f, set_faults rest w)
       end.

Definition emit (e : Event) : M unit :=
  λ w, (tt, set_trace (trace w ++ [e]) w).

Definition time_Now : M Z := λ w, (now w, w).

(** The world as it is when the call is made. *)
Definition world : M World := λ w, (w, w).

Definition succeeded (e : error) : bool :=
  match e with None => true | Some _ => false end.

(** Run [body] and record the call with its outcome. *)
Definition logged (ev : bool → Event) (body : M error) : M error :=
  e ← body; _ ← emit (ev (succeeded e)); mret e.

(** ** Package [db] *)

Module db.

(** What [crypto/rand.Read] did on the buffer: the bytes it wrote from
    the start of the buffer, and whether it returned an error. *)
Record RandRead := { written : list byte; failed : bool }.

(** [bytes := make([]byte, n)] after the read. *)
Definition buffer (n : nat) (r : RandRead) : list byte :=
  take n (written r ++ replicate n x00).

(** [GeneratePassword] generates a secure random password *)
Definition GeneratePassword (r : RandRead) : string :=
  let bytes := buffer 16 r in
  if failed r then
    (* Fallback to a deterministic but unique password *)
    "fallback_password_" ++ hex.EncodeToString (take 8 bytes)
  else hex.EncodeToString bytes.

(** [ConnectionString] returns a PostgreSQL connection string *)
Definition ConnectionString (host : string) (port : Z)
    (dbName userName password : string) : string :=
  "postgresql://" ++ userName ++ ":" ++ password ++ "@" ++ host ++ ":"
    ++ fmt.d port ++ "/" ++ dbName ++ "?sslmode=disable".

(** [quoteLiteral] properly quotes a string literal for SQL *)
Fixpoint doubleQuotes (s : string) : string :=
  match s with
  | EmptyString => EmptyString
  | String c rest =>
      if Ascii.eqb c "'" then String c (String c (doubleQuotes rest))
      else String c (doubleQuotes rest)
  end.
Definition quoteLiteral (s : string) : string := "'" ++ doubleQuotes s ++ "'".

(** The statements the client sends. Their SQL text quotes [dbName]
    and [userName] as identifiers and the password as a literal, so
    each statement names exactly the objects given here. *)
Inductive Stmt :=
| CreateUser (userName password : string)
| CreateDatabaseOwner (dbName userName : string)
| GrantAll (dbName userName : string)
| TerminateBackends (dbName : string)
| DropDatabaseIfExists (dbName : string)
| DropUserIfExists (userName : string).

Definition owns (s : PgServer) (userName : string) : bool :=
  bool_decide (map_Exists (λ _ owner, owner = userName) (owners s)).

(** The server's answer to a statement: the new state, or the message
    of the error. Sessions and privileges are not part of the state. *)
Definition run (st : Stmt) (s : PgServer) : Result PgServer :=
  match st with
  | CreateUser u _ =>
      if bool_decide (u ∈ roles s)
      then Err ("ERROR: role " ++ u ++ " already exists (SQLSTATE 42710)")
      else Ok {| roles := {[u]} ∪ roles s; owners := owners s |}
  | CreateDatabaseOwner d u =>
      if bool_decide (is_Some (owners s !! d))
      then Err ("ERROR: database " ++ d ++ " already exists (SQLSTATE 42P04)")
      else if bool_decide (u ∈ roles s)
      then Ok {| roles := roles s; owners := <[d := u]> (owners s) |}
      else Err ("ERROR: role " ++ u ++ " does not exist (SQLSTATE 42704)")
  | GrantAll d u =>
      if bool_decide (is_Some (owners s !! d)) && bool_decide (u ∈ roles s)
      then Ok s
      else Err "ERROR: object does not exist (SQLSTATE 42704)"
  | TerminateBackends _ => Ok s
  | DropDatabaseIfExists d =>
      Ok {| roles := roles s; owners := delete d (owners s) |}
  | DropUserIfExists u =>
      if owns s u
      then Err ("ERROR: role " ++ u
                ++ " cannot be dropped because some objects depend on it (SQLSTATE 2BP01)")
      else Ok {| roles := roles s ∖ {[u]}; owners := owners s |}
  end.

End db.

(** The methods of [db.PostgresClient]. *)
Module PostgresClient.
Import db.

(** [connect] establishes a connection to the PostgreSQL server *)
Definition connect : M error := driver.

(** The server receives the statement and answers it. *)
Definition answer (st : Stmt) : M error :=
  λ w, match run st (server w) with
       | Ok s => (None, set_server s w)
       | Err e => (Some e, w)
       end.

(** [conn.Exec(ctx, sql)] *)
Definition Exec (st : Stmt) : M error :=
  f ← driver;
  match f with
  | Some e => mret (Some e)
  | None => answer st
  end.

(** [CreateDatabase] creates a new database and user with the given names *)
Definition CreateDatabase (dbName userName password : string) : M error :=
  logged (EvPgCreateDatabase dbName userName)
    (err ← connect;
     match err with
     | Some e => mret (Some ("failed to connect: " ++ e))
     | None =>
         let afterUser : M error :=
           (* Create database *)
           err ← Exec (CreateDatabaseOwner dbName userName);
           match err with
           | Some e => mret (Some ("failed to create database: " ++ e))
           | None =>
               (* Grant all privileges *)
               err ← Exec (GrantAll dbName userName);
               match err with
               | Some e => mret (Some ("failed to grant privileges: " ++ e))
               | None => mret None
               end
           end in
         (* Create user *)
         err ← Exec (CreateUser userName password);
         match err with
         | Some e =>
             (* Check if user already exists *)
             if negb (strings.Contains e "already exists")
             then mret (Some ("failed to create user: " ++ e))
             else afterUser
         | None => afterUser
         end
     end).

(** [DropDatabase] drops a database and its associated user *)
Definition DropDatabase (dbName userName : string) : M error :=
  logged (EvPgDropDatabase dbName userName)
    (err ← connect;
     match err with
     | Some e => mret (Some ("failed to connect: " ++ e))
     | None =>
         (* Terminate existing connections to the database;
            ignore errors here, the database might not exist *)
         _ ← Exec (TerminateBackends dbName);
         (* Drop database *)
         err ← Exec (DropDatabaseIfExists dbName);
         match err with
         | Some e => mret (Some ("failed to drop database: " ++ e))
         | None =>
             (* Drop user *)
             err ← Exec (DropUserIfExists userName);
             match err with
             | Some e => mret (Some ("failed to drop user: " ++ e))
             | None => mret None
             end
         end
     end).

End PostgresClient.

(** ** Package [meta]: the methods of the SQLite [Store] *)

(** Each method makes one call into the SQL driver, and that call is
    where an outside failure can strike; [LastInsertId], [RowsAffected]
    and the scan of the rows do not fail on their own. *)
Module Store.

(** Dates are compared as instants. *)
Definition before (a b : Z) : bool := (a <? b)%Z.

(** [WHERE name = ?] on [projects] *)
Definition project_named (name : string) (p : Project.t) : bool :=
  String.eqb (Project.Name p) name.

(** [WHERE project_id = ? AND env = ?] followed by [AND pr_number = ?]
    or by [AND pr_number IS NULL] *)
Definition database_for (projectID : Z) (env : string) (prNumber : option Z)
    (d : Database.t) : bool :=
  (Database.ProjectID d =? projectID)%Z && String.eqb (Database.Env d) env
  && match prNumber, Database.PRNumber d with
     | Some n, Some m => (m =? n)%Z
     | None, None => true
     | _, _ => false
     end.

(** [WHERE name = ?] on [databases] *)
Definition database_named (name : string) (d : Database.t) : bool :=
  String.eqb (Database.Name d) name.

(** [WHERE expires_at IS NOT NULL AND expires_at < datetime('now')] *)
Definition expired (now : Z) (d : Database.t) : bool :=
  match Database.ExpiresAt d with
  | Some t => before t now
  | None => false
  end.

(** [WHERE env = ? AND created_at < ?] *)
Definition older_than (env : string) (cutoff : Z) (d : Database.t) : bool :=
  String.eqb (Database.Env d) env && before (Database.CreatedAt d) cutoff.

(** [ORDER BY] a date column *)
Definition by_key (key : Database.t → Z) : relation Database.t :=
  λ a b, (key a ≤ key b)%Z.
#[global] Instance by_key_dec key : RelDecision (by_key key) :=
  λ a b, decide (key a ≤ key b)%Z.
Definition order_by (key : Database.t → Z) (rows : list Database.t) : list Database.t :=
  merge_sort (by_key key) rows.

(** The [INSERT INTO databases]: the table refuses a second row of the
    same [name] (UNIQUE) and a [project_id] that is no project
    (FOREIGN KEY, with [PRAGMA foreign_keys = ON]); [id] comes from the
    AUTOINCREMENT counter and [created_at] from CURRENT_TIMESTAMP. *)
Definition insert_database (projectID : Z) (name userName password env : string)
    (prNumber expiresAt : option Z) (now : Z) (s : SQLiteDB) : Result (Z * SQLiteDB) :=
  if existsb (database_named name) (databases s)
  then Err "UNIQUE constraint failed: databases.name"
  else if negb (existsb (λ p, (Project.ID p =? projectID)%Z) (projects s))
  then Err "FOREIGN KEY constraint failed"
  else
    let id := (seq_databases s + 1)%Z in
    let row := {| Database.ID := id; Database.ProjectID := projectID;
                  Database.Name := name; Database.UserName := userName;
                  Database.Password := password; Database.Env := env;
                  Database.PRNumber := prNumber; Database.CreatedAt := now;
                  Database.ExpiresAt := expiresAt |} in
    Ok (id, {| projects := projects s; databases := databases s ++ [row];
               seq_projects := seq_projects s; seq_databases := id |}).

(** The [DELETE FROM databases WHERE name = ?], with the number of rows
    it removed. *)
Definition delete_database (name : string) (s : SQLiteDB) : Z * SQLiteDB :=
  (Z.of_nat (length (List.filter (database_named name) (databases s))),
   {| projects := projects s;
      databases := List.filter (λ d, negb (database_named name d)) (databases s);
      seq_projects := seq_projects s; seq_databases := seq_databases s |}).

(** [GetProject] retrieves a project by name *)
Definition GetProject (name : string) : M (Result (option Project.t)) :=
  f ← driver;
  w ← world;
  _ ← emit (EvGetProject name);
  match f with
  | Some e => mret (Err ("failed to get project: " ++ e))
  | None => mret (Ok (List.find (project_named name) (projects (sqlite w))))
  end.

(** [GetDatabase] retrieves a database by project and environment *)
Definition GetDatabase (projectID : Z) (env : string) (prNumber : option Z)
    : M (Result (option Database.t)) :=
  f ← driver;
  w ← world;
  _ ← emit (EvGetDatabase projectID env prNumber);
  match f with
  | Some e => mret (Err ("failed to get database: " ++ e))
  | None =>
      mret (Ok (List.find (database_for projectID env prNumber) (databases (sqlite w))))
  end.

(** [CreateDatabase] creates a new database record *)
Definition CreateDatabase (projectID : Z) (name userName password env : string)
    (prNumber expiresAt : option Z) : M (Result Database.t) :=
  f ← driver;
  r ← (match f with
       | Some e => mret (Err ("failed to create database: " ++ e))
       | None =>
           λ w,
             match insert_database projectID name userName password env
                     prNumber expiresAt (now w) (sqlite w) with
             | Err e => (Err ("failed to create database: " ++ e), w)
             | Ok (id, s) =>
                 (Ok {| Database.ID := id; Database.ProjectID := projectID;
                        Database.Name := name; Database.UserName := userName;
                        Database.Password := password; Database.Env := env;
                        Database.PRNumber := prNumber; Database.CreatedAt := now w;
                        Database.ExpiresAt := expiresAt |},
                  set_sqlite s w)
             end
       end : M (Result Database.t));
  _ ← emit (EvStoreCreateDatabase name (negb (is_err r)));
  mret r.

(** [DeleteDatabase] deletes a database record by name *)
Definition DeleteDatabase (name : string) : M error :=
  logged (EvStoreDeleteDatabase name)
    (f ← driver;
     match f with
     | Some e => mret (Some ("failed to delete database: " ++ e))
     | None =>
         (λ w,
            let '(affected, s) := delete_database name (sqlite w) in
            if (affected =? 0)%Z
            then (Some ("database not found: " ++ name), set_sqlite s w)
            else (None, set_sqlite s w)) : M error
     end).

(** [GetExpiredDatabases] returns databases that have expired *)
Definition GetExpiredDatabases : M (Result (list Database.t)) :=
  f ← driver;
  w ← world;
  _ ← emit EvGetExpiredDatabases;
  match f with
  | Some e => mret (Err ("failed to get expired databases: " ++ e))
  | None =>
      mret (Ok (order_by (λ d, default 0%Z (Database.ExpiresAt d))
                  (List.filter (expired (now w)) (databases (sqlite w)))))
  end.

(** [GetDatabasesOlderThan] returns databases created before the given duration *)
Definition GetDatabasesOlderThan (env : string) (olderThan : Z)
    : M (Result (list Database.t)) :=
  f ← driver;
  w ← world;
  _ ← emit (EvGetDatabasesOlderThan env olderThan);
  let cutoff := (now w - olderThan)%Z in
  match f with
  | Some e => mret (Err ("failed to get old databases: " ++ e))
  | None =>
      mret (Ok (order_by Database.CreatedAt
                  (List.filter (older_than env cutoff) (databases (sqlite w)))))
  end.

(** [ORDER BY name]: the rows by the bytes of their names *)
Definition by_name {A} (name : A → string) : relation A :=
  λ a b, String.leb (name a) (name b) = true.
#[global] Instance by_name_dec {A} (name : A → string) : RelDecision (by_name name) :=
  λ a b, decide (String.leb (name a) (name b) = true).
Definition order_by_name {A} (name : A → string) (rows : list A) : list A :=
  merge_sort (by_name name) rows.

(** The [INSERT INTO projects]: the table refuses a second row of the
    same [name] (UNIQUE). *)
Definition insert_project (name : string) (now : Z) (s : SQLiteDB)
    : Result (Project.t * SQLiteDB) :=
  if existsb (project_named name) (projects s)
  then Err "UNIQUE constraint failed: projects.name"
  else
    let id := (seq_projects s + 1)%Z in
    let row := {| Project.ID := id; Project.Name := name; Project.CreatedAt := now |} in
    Ok (row, {| projects := projects s ++ [row]; databases := databases s;
                seq_projects := id; seq_databases := seq_databases s |}).

(** The [DELETE FROM projects WHERE id = ?]; with the foreign keys on,
    the rows of [databases] that refer to the project go with it
    (ON DELETE CASCADE). *)
Definition delete_project (id : Z) (s : SQLiteDB) : SQLiteDB :=
  {| projects := List.filter (λ p, negb (Project.ID p =? id)%Z) (projects s);
     databases := List.filter (λ d, negb (Database.ProjectID d =? id)%Z) (databases s);
     seq_projects := seq_projects s; seq_databases := seq_databases s |}.

(** [CreateProject] creates a new project *)
Definition CreateProject (name : string) : M (Result Project.t) :=
  f ← driver;
  match f with
  | Some e => mret (Err ("failed to create project: " ++ e))
  | None =>
      λ w, match insert_project name (now w) (sqlite w) with
           | Err e => (Err ("failed to create project: " ++ e), w)
           | Ok (row, s) => (Ok row, set_sqlite s w)
           end
  end.

(** [ListProjects] returns all projects *)
Definition ListProjects : M (Result (list Project.t)) :=
  f ← driver;
  w ← world;
  match f with
  | Some e => mret (Err ("failed to list projects: " ++ e))
  | None => mret (Ok (order_by_name Project.Name (projects (sqlite w))))
  end.

(** [ListDatabases] returns all databases for a project *)
Definition ListDatabases (projectID : Z) : M (Result (list Database.t)) :=
  f ← driver;
  w ← world;
  match f with
  | Some e => mret (Err ("failed to list databases: " ++ e))
  | None =>
      mret (Ok (order_by_name Database.Name
                  (List.filter (λ d, (Database.ProjectID d =? projectID)%Z)
                     (databases (sqlite w)))))
  end.

(** [ListAllDatabases] returns all databases *)
Definition ListAllDatabases : M (Result (list Database.t)) :=
  f ← driver;
  w ← world;
  match f with
  | Some e => mret (Err ("failed to list all databases: " ++ e))
  | None => mret (Ok (order_by_name Database.Name (databases (sqlite w))))
  end.

(** [GetDatabaseByName] retrieves a database by its full name *)
Definition GetDatabaseByName (name : string) : M (Result (option Database.t)) :=
  f ← driver;
  w ← world;
  match f with
  | Some e => mret (Err ("failed to get database: " ++ e))
  | None => mret (Ok (List.find (database_named name) (databases (sqlite w))))
  end.

(** [DeleteProject] deletes a project and returns its associated databases *)
Definition DeleteProject (name : string) : M (Result (list Database.t)) :=
  (* First, get the project *)
  r ← GetProject name;
  match r with
  | Err e => mret (Err e)
  | Ok None => mret (Err ("project not found: " ++ name))
  | Ok (Some project) =>
      (* Get all databases for this project *)
      r ← ListDatabases (Project.ID project);
      match r with
      | Err e => mret (Err e)
      | Ok databases =>
          (* Delete the project (cascades to databases due to foreign key) *)
          f ← driver;
          match f with
          | Some e => mret (Err ("failed to delete project: " ++ e))
          | None =>
              (λ w, (Ok databases,
                     set_sqlite (delete_project (Project.ID project) (sqlite w)) w))
                : M (Result (list Database.t))
          end
      end
  end.

End Store.

(** ** Package [project] *)

Module project.

(** [validEnvs] are the allowed environment names *)
Definition validEnvs : gmap string bool :=
  list_to_map [("prod", true); ("dev", true); ("staging", true); ("pr", true)].

(** [ValidateEnv] validates an environment name *)
Definition ValidateEnv (env : string) : error :=
  if negb (default false (validEnvs !! env)) then
    Some ("invalid environment '" ++ env ++ "', must be one of: prod, dev, staging, pr")
  else None.

(** [DatabaseName] generates the database name for a project and environment *)
Definition DatabaseName (project env : string) (prNumber : option Z) : string :=
  match String.eqb env "pr", prNumber with
  | true, Some n => project ++ "_pr_" ++ fmt.d n
  | _, _ => project ++ "_" ++ env
  end.

(** [UserName] generates the user name for a database *)
Definition UserName (dbName : string) : string := dbName ++ "_user".

(** [ParseEnv] parses an environment string which may include a PR number *)
Definition ParseEnv (envStr : string) : string * option Z * error :=
  if strings.HasPrefix envStr "pr_" then
    match fmt.Sscanf_lit_d "pr_" envStr with
    | Err _ => (EmptyString, None, Some "invalid PR environment format, expected pr_<number>")
    | Ok num => ("pr", Some num, None)
    end
  else (envStr, None, None).

Definition isLower (c : ascii) : bool :=
  let n := N_of_ascii c in (97 <=? n)%N && (n <=? 122)%N.

Definition isNameByte (c : ascii) : bool :=
  isLower c || fmt.isDigit c || Ascii.eqb c "_".

Fixpoint allNameBytes (s : string) : bool :=
  match s with
  | EmptyString => true
  | String c rest => isNameByte c && allNameBytes rest
  end.

(** [validNameRegex] matches valid project names (lowercase alphanumeric
    and underscores): [validNameRegex.MatchString] for the expression
    [^[a-z][a-z0-9_]*$], whose [$] is the end of the text. *)
Definition validNameRegex (s : string) : bool :=
  match s with
  | EmptyString => false
  | String c rest => isLower c && allNameBytes rest
  end.

(** [reservedNames] are names that cannot be used as project names *)
Definition reservedNames : gmap string bool :=
  list_to_map [("postgres", true); ("template0", true); ("template1", true);
               ("admin", true); ("root", true); ("system", true)].

(** [ValidateName] validates a project name *)
Definition ValidateName (name : string) : error :=
  if (String.length name <? 2)%nat then
    Some "project name must be at least 2 characters"
  else if (32 <? String.length name)%nat then
    Some "project name must be at most 32 characters"
  else if negb (validNameRegex name) then
    Some "project name must start with a letter and contain only lowercase letters, numbers, and underscores"
  else if default false (reservedNames !! name) then
    Some ("'" ++ name ++ "' is a reserved name")
  else None.

End project.

(** The methods of [project.Manager]. The manager's configuration is the
    argument [cfg]; its store and its engine client live in the world. *)
Module Manager.
Import project.

(** [CreateDatabase] creates a new database for a project. [rnd] is
    what the one read of the random source does during the call. The
    call of [db.ConnectionString] passes [cfg.Postgres.SSLMode] as a
    sixth argument, for which the function has no parameter. *)
Definition CreateDatabase (cfg : Config.t) (rnd : db.RandRead)
    (projectName env : string) (prNumber : option Z) : M (Result DatabaseInfo.t) :=
  match ValidateEnv env with
  | Some e => mret (Err e)
  | None =>
  if String.eqb env "pr" && negb (bool_decide (is_Some prNumber)) then
    mret (Err "PR number is required for PR databases")
  else
  (* Get project *)
  r ← Store.GetProject projectName;
  match r with
  | Err e => mret (Err ("failed to get project: " ++ e))
  | Ok None => mret (Err ("project '" ++ projectName ++ "' not found"))
  | Ok (Some project) =>
  (* Check if database already exists *)
  r ← Store.GetDatabase (Project.ID project) env prNumber;
  match r with
  | Err e => mret (Err ("failed to check database: " ++ e))
  | Ok (Some _) =>
      mret (Err ("database already exists for " ++ projectName ++ "/" ++ env))
  | Ok None =>
  (* Generate names and password *)
  let dbName := DatabaseName projectName env prNumber in
  let userName := UserName dbName in
  let password := db.GeneratePassword rnd in
  (* Set TTL for PR databases *)
  t ← time_Now;
  let expiresAt :=
    if String.eqb env "pr"
    then Some (t + CleanupConfig.DefaultTTL (Config.Cleanup cfg))%Z
    else None in
  (* Create database in PostgreSQL *)
  err ← PostgresClient.CreateDatabase dbName userName password;
  match err with
  | Some e => mret (Err ("failed to create database: " ++ e))
  | None =>
  (* Store metadata *)
  r ← Store.CreateDatabase (Project.ID project) dbName userName password env
        prNumber expiresAt;
  match r with
  | Err e =>
      (* Try to clean up the PostgreSQL database *)
      _ ← PostgresClient.DropDatabase dbName userName;
      mret (Err ("failed to store database metadata: " ++ e))
  | Ok dbRecord =>
      let pg := Config.Postgres cfg in
      mret (Ok {|
        DatabaseInfo.Project := projectName;
        DatabaseInfo.Env := env;
        DatabaseInfo.PRNumber := prNumber;
        DatabaseInfo.DatabaseName := dbName;
        DatabaseInfo.UserName := userName;
        DatabaseInfo.Password := password;
        DatabaseInfo.Host := PostgresConfig.Host pg;
        DatabaseInfo.Port := PostgresConfig.Port pg;
        DatabaseInfo.ConnString :=
          db.ConnectionString (PostgresConfig.Host pg) (PostgresConfig.Port pg)
            dbName userName password;
        DatabaseInfo.CreatedAt := Database.CreatedAt dbRecord;
        DatabaseInfo.ExpiresAt := expiresAt |})
  end end end end end.

(** [DeleteDatabase] deletes a database *)
Definition DeleteDatabase (projectName env : string) (prNumber : option Z) : M error :=
  match ValidateEnv env with
  | Some e => mret (Some e)
  | None =>
  (* Get project *)
  r ← Store.GetProject projectName;
  match r with
  | Err e => mret (Some ("failed to get project: " ++ e))
  | Ok None => mret (Some ("project '" ++ projectName ++ "' not found"))
  | Ok (Some project) =>
  (* Get database *)
  r ← Store.GetDatabase (Project.ID project) env prNumber;
  match r with
  | Err e => mret (Some ("failed to get database: " ++ e))
  | Ok None => mret (Some "database not found")
  | Ok (Some dbRecord) =>
  (* Drop from PostgreSQL *)
  err ← PostgresClient.DropDatabase (Database.Name dbRecord) (Database.UserName dbRecord);
  match err with
  | Some e => mret (Some ("failed to drop database: " ++ e))
  | None =>
  (* Delete metadata *)
  err ← Store.DeleteDatabase (Database.Name dbRecord);
  match err with
  | Some e => mret (Some ("failed to delete database metadata: " ++ e))
  | None => mret None
  end end end end end.

(** [toDelete[db.Name] = db] for each record of the list *)
Definition collect (m : gmap string Database.t) (rows : list Database.t)
    : gmap string Database.t :=
  foldl (λ m d, <[Database.Name d := d]> m) m rows.

(** The loop [for _, dbRecord := range toDelete] of [Cleanup] over the
    records in the order the map yields them; the two warnings go to
    the standard output, which is not part of the world. *)
Fixpoint deleteEach (records : list Database.t) (deleted : list string)
    : M (list string) :=
  match records with
  | [] => mret deleted
  | dbRecord :: rest =>
      err ← PostgresClient.DropDatabase (Database.Name dbRecord) (Database.UserName dbRecord);
      match err with
      | Some _ => deleteEach rest deleted
      | None =>
          err ← Store.DeleteDatabase (Database.Name dbRecord);
          match err with
          | Some _ => deleteEach rest deleted
          | None => deleteEach rest (deleted ++ [Database.Name dbRecord])
          end
      end
  end.

(** The records [Cleanup] works on, once the two queries have
    answered: combine and deduplicate. *)
Definition candidates (expired oldPR : list Database.t) : list Database.t :=
  (map_to_list (collect (collect ∅ expired) oldPR)).*2.

(** [Cleanup] removes expired and old PR databases *)
Definition Cleanup (olderThan : Z) : M (Result (list string)) :=
  (* Get expired databases *)
  r ← Store.GetExpiredDatabases;
  match r with
  | Err e => mret (Err ("failed to get expired databases: " ++ e))
  | Ok expired =>
  (* Get old PR databases *)
  r ← Store.GetDatabasesOlderThan "pr" olderThan;
  match r with
  | Err e => mret (Err ("failed to get old PR databases: " ++ e))
  | Ok oldPR =>
  (* Delete each database *)
  deleted ← deleteEach (candidates expired oldPR) [];
  mret (Ok deleted)
  end end.

(** [CreateProject] creates a new project *)
Definition CreateProject (name : string) : M error :=
  match ValidateName name with
  | Some e => mret (Some e)
  | None =>
  (* Check if project already exists *)
  r ← Store.GetProject name;
  match r with
  | Err e => mret (Some ("failed to check project: " ++ e))
  | Ok (Some _) => mret (Some ("project '" ++ name ++ "' already exists"))
  | Ok None =>
  r ← Store.CreateProject name;
  match r with
  | Err e => mret (Some ("failed to create project: " ++ e))
  | Ok _ => mret None
  end end end.

(** The loop of [DeleteProject] over the databases of the project; the
    warning goes to the standard output. *)
Fixpoint dropEach (databases : list Database.t) : M unit :=
  match databases with
  | [] => mret tt
  | d :: rest =>
      (* Log but continue with other databases *)
      _ ← PostgresClient.DropDatabase (Database.Name d) (Database.UserName d);
      dropEach rest
  end.

(** [DeleteProject] deletes a project and all its databases *)
Definition DeleteProject (name : string) : M error :=
  (* Get all databases for this project *)
  r ← Store.DeleteProject name;
  match r with
  | Err e => mret (Some e)
  | Ok databases =>
      (* Drop all databases from PostgreSQL *)
      _ ← dropEach databases;
      mret None
  end.

(** [GetDatabase] returns information about a database *)
Definition GetDatabase (cfg : Config.t) (projectName env : string) (prNumber : option Z)
    : M (Result DatabaseInfo.t) :=
  match ValidateEnv env with
  | Some e => mret (Err e)
  | None =>
  (* Get project *)
  r ← Store.GetProject projectName;
  match r with
  | Err e => mret (Err ("failed to get project: " ++ e))
  | Ok None => mret (Err ("project '" ++ projectName ++ "' not found"))
  | Ok (Some project) =>
  (* Get database *)
  r ← Store.GetDatabase (Project.ID project) env prNumber;
  match r with
  | Err e => mret (Err ("failed to get database: " ++ e))
  | Ok None =>
      let envStr := match prNumber with
                    | Some n => "pr_" ++ fmt.d n
                    | None => env
                    end in
      mret (Err ("database not found for " ++ projectName ++ "/" ++ envStr))
  | Ok (Some dbRecord) =>
      let pg := Config.Postgres cfg in
      mret (Ok {|
        DatabaseInfo.Project := projectName;
        DatabaseInfo.Env := env;
        DatabaseInfo.PRNumber := Database.PRNumber dbRecord;
        DatabaseInfo.DatabaseName := Database.Name dbRecord;
        DatabaseInfo.UserName := Database.UserName dbRecord;
        DatabaseInfo.Password := Database.Password dbRecord;
        DatabaseInfo.Host := PostgresConfig.Host pg;
        DatabaseInfo.Port := PostgresConfig.Port pg;
        DatabaseInfo.ConnString :=
          db.ConnectionString (PostgresConfig.Host pg) (PostgresConfig.Port pg)
            (Database.Name dbRecord) (Database.UserName dbRecord)
            (Database.Password dbRecord);
        DatabaseInfo.CreatedAt := Database.CreatedAt dbRecord;
        DatabaseInfo.ExpiresAt := Database.ExpiresAt dbRecord |})
  end end end.

(** [projectCache[p.ID] = p.Name] for each project of the list *)
Definition remember (cache : gmap Z string) (projects : list Project.t) : gmap Z string :=
  foldl (λ m p, <[Project.ID p := Project.Name p]> m) cache projects.

(** The loop of [ListDatabases] that converts the records and looks up
    the names of their projects; the error of [ListProjects] is dropped
    and a project that is not found has the empty name. *)
Fixpoint describeEach (cfg : Config.t) (databases : list Database.t)
    (projectCache : gmap Z string) (result : list DatabaseInfo.t)
    : M (list DatabaseInfo.t) :=
  match databases with
  | [] => mret result
  | dbItem :: rest =>
      '(projectNameStr, projectCache) ←
        match projectCache !! Database.ProjectID dbItem with
        | Some name => mret (name, projectCache)
        | None =>
            r ← Store.ListProjects;
            let projects := match r with Ok ps => ps | Err _ => [] end in
            let projectCache := remember projectCache projects in
            mret (default EmptyString (projectCache !! Database.ProjectID dbItem),
                  projectCache)
        end;
      let pg := Config.Postgres cfg in
      describeEach cfg rest projectCache (result ++ [{|
        DatabaseInfo.Project := projectNameStr;
        DatabaseInfo.Env := Database.Env dbItem;
        DatabaseInfo.PRNumber := Database.PRNumber dbItem;
        DatabaseInfo.DatabaseName := Database.Name dbItem;
        DatabaseInfo.UserName := Database.UserName dbItem;
        DatabaseInfo.Password := Database.Password dbItem;
        DatabaseInfo.Host := PostgresConfig.Host pg;
        DatabaseInfo.Port := PostgresConfig.Port pg;
        DatabaseInfo.ConnString :=
          db.ConnectionString (PostgresConfig.Host pg) (PostgresConfig.Port pg)
            (Database.Name dbItem) (Database.UserName dbItem) (Database.Password dbItem);
        DatabaseInfo.CreatedAt := Database.CreatedAt dbItem;
        DatabaseInfo.ExpiresAt := Database.ExpiresAt dbItem |}])
  end.

(** [ListDatabases] returns all databases for a project, or all
    databases if project is empty. In the branch of a named project,
    [project, err := ...] declares an [err] of its own, and it is that
    one which [databases, err = m.store.ListDatabases(project.ID)]
    assigns: the [err] tested after the branch is still [nil]. *)
Definition ListDatabases (cfg : Config.t) (projectName : string)
    : M (Result (list DatabaseInfo.t)) :=
  listed ←
    (if String.eqb projectName EmptyString then
       r ← Store.ListAllDatabases;
       match r with
       | Err e => mret (Err ("failed to list databases: " ++ e))
       | Ok databases => mret (Ok databases)
       end
     else
       r ← Store.GetProject projectName;
       match r with
       | Err e => mret (Err ("failed to get project: " ++ e))
       | Ok None => mret (Err ("project '" ++ projectName ++ "' not found"))
       | Ok (Some project) =>
           r ← Store.ListDatabases (Project.ID project);
           match r with
           | Err _ => mret (Ok [])
           | Ok databases => mret (Ok databases)
           end
       end);
  match listed with
  | Err e => mret (Err e)
  | Ok databases =>
      (* Convert to DatabaseInfo and look up project names *)
      result ← describeEach cfg databases ∅ [];
      mret (Ok result)
  end.

End Manager.

(** ** Package [api]: the handler of [POST /api/projects/{name}/databases] *)

Module CreateDatabaseRequest.
Record t := { Env : string; PRNumber : option Z }.
End CreateDatabaseRequest.

Module Server.

(** [MaxPRNumber] is the maximum allowed PR number *)
Definition MaxPRNumber : Z := 1000000.

Definition StatusBadRequest : Z := 400.
Definition StatusCreated : Z := 201.

(** What the handler writes: [writeError(w, status, message)], or
    [writeJSON(w, status, DatabaseResponse{...})] whose fields are
    those of the [DatabaseInfo]. *)
Inductive Response :=
| writeError (status : Z) (message : string)
| writeJSON (status : Z) (info : DatabaseInfo.t).

(** [createDatabase]; [body] is the decoded request body, [None] when
    the JSON decoder returns an error. *)
Definition createDatabase (cfg : Config.t) (rnd : db.RandRead)
    (projectName : string) (body : option CreateDatabaseRequest.t) : M Response :=
  match body with
  | None => mret (writeError StatusBadRequest "invalid request body")
  | Some req =>
  if String.eqb (CreateDatabaseRequest.Env req) EmptyString then
    mret (writeError StatusBadRequest "env is required")
  else
  (* Validate PR number bounds *)
  let rejected :=
    match CreateDatabaseRequest.PRNumber req with
    | Some n =>
        if (n <=? 0)%Z then
          Some (writeError StatusBadRequest "PR number must be positive")
        else if (n >? MaxPRNumber)%Z then
          Some (writeError StatusBadRequest
                  ("PR number must be less than " ++ fmt.d MaxPRNumber))
        else None
    | None => None
    end in
  match rejected with
  | Some resp => mret resp
  | None =>
  r ← Manager.CreateDatabase cfg rnd projectName (CreateDatabaseRequest.Env req)
        (CreateDatabaseRequest.PRNumber req);
  match r with
  | Err e => mret (writeError StatusBadRequest e)
  | Ok info => mret (writeJSON StatusCreated info)
  end end end.

Definition StatusUnauthorized : Z := 401.
Definition StatusServiceUnavailable : Z := 503.

(** [validateToken] performs constant-time comparison of tokens to
    prevent timing attacks. Returns: (valid bool, tokenRequired bool) *)
Definition validateToken (provided expected : string) (requireToken : bool) : bool * bool :=
  if String.eqb expected EmptyString then
    if requireToken then
      (* Token is required but not configured - reject all requests *)
      (false, true)
    else
      (* No token configured and not required - allow all requests *)
      (true, false)
  else
    ((subtle.ConstantTimeCompare (subtle.bytes provided) (subtle.bytes expected) =? 1)%Z,
     false).

(** What the middleware does with a request: hand it to the next
    handler, or answer it with [writeError]. *)
Inductive Verdict :=
| next
| refuse (status : Z) (message : string).

(** [authMiddleware] validates the Bearer token in the Authorization
    header; [path] is [r.URL.Path] and [authHeader] is
    [r.Header.Get("Authorization")]. *)
Definition authMiddleware (api : APIConfig.t) (path authHeader : string) : Verdict :=
  (* Skip auth for health check *)
  if String.eqb path "/api/health" then next
  else if String.eqb authHeader EmptyString then
    refuse StatusUnauthorized "missing authorization header"
  (* Check for Bearer prefix *)
  else if negb (strings.HasPrefix authHeader "Bearer ") then
    refuse StatusUnauthorized "invalid authorization header format"
  else
    (* Extract and validate token *)
    let token := strings.TrimPrefix authHeader "Bearer " in
    let '(valid, tokenNotConfigured) :=
      validateToken token (APIConfig.Token api) (APIConfig.RequireToken api) in
    if tokenNotConfigured then refuse StatusServiceUnavailable "API token not configured"
    else if negb valid then refuse StatusUnauthorized "invalid token"
    else next.




End Server.

(** ** Vocabulary of the statements *)

(** The next [n] driver calls meet no outside failure. *)
Definition answers (n : nat) (w : World) : Prop :=
  Forall (λ f, f = None) (take n (faults w)).

(** What became of one record in a cleanup run. *)
Inductive Outcome := DropFailed | MetadataDeleteFailed | Removed.

(** The calls a cleanup run makes for a record with that outcome. *)
Definition processing (d : Database.t) (o : Outcome) : list Event :=
  let n := Database.Name d in
  let u := Database.UserName d in
  match o with
  | DropFailed => [EvPgDropDatabase n u false]
  | MetadataDeleteFailed => [EvPgDropDatabase n u true; EvStoreDeleteDatabase n false]
  | Removed => [EvPgDropDatabase n u true; EvStoreDeleteDatabase n true]
  end.

(** The names of the records that a run removed from both sides. *)
Fixpoint removed_names (ds : list Database.t) (os : list Outcome) : list string :=
  match ds, os with
  | d :: ds', Removed :: os' => Database.Name d :: removed_names ds' os'
  | _ :: ds', _ :: os' => removed_names ds' os'
  | _, _ => []
  end.

(** The records a cleanup run is after: the expiry is in the past, or
    the record is of the environment [pr] and older than [olderThan]. *)
Definition qualifies (w : World) (olderThan : Z) (d : Database.t) : Prop :=
  (∃ t, Database.ExpiresAt d = Some t ∧ (t < now w)%Z)
  ∨ (Database.Env d = "pr" ∧ (Database.CreatedAt d < now w - olderThan)%Z).

(** The rows a run leaves in the metadata: those of the other names. *)
Definition keeps (names : list string) (d : Database.t) : bool :=
  bool_decide (Database.Name d ∉ names).

Definition is_lower_hex (c : ascii) : bool :=
  let n := N_of_ascii c in
  ((48 <=? n)%N && (n <=? 57)%N) || ((97 <=? n)%N && (n <=? 102)%N).

Fixpoint string_forall (p : ascii → bool) (s : string) : bool :=
  match s with
  | EmptyString => true
  | String c rest => p c && string_forall p rest
  end.


(** The project of the record [d] in the store [s]. *)
Definition owner (s : SQLiteDB) (d : Database.t) (p : Project.t) : Prop :=
  p ∈ projects s ∧ Project.ID p = Database.ProjectID d.


(** The values of a [uint8] *)
Definition is_byte (z : Z) : Prop := (0 ≤ z < 256)%Z.

(** The bytes of a numeral printed by [%d], and the bytes that are not
    the separator of the parts of a database name. *)
Definition digit_or_minus (c : ascii) : bool := fmt.isDigit c || Ascii.eqb c "-".
Definition no_underscore (c : ascii) : bool := negb (Ascii.eqb c "_").


(** ** Scenarios *)

Module Scenario.

Definition cfg : Config.t :=
  {| Config.Postgres :=
       {| PostgresConfig.Host := "localhost"; PostgresConfig.Port := 5432;
          PostgresConfig.User := "postgres"; PostgresConfig.Password := "admin_pw";
          PostgresConfig.Database := "postgres"; PostgresConfig.SSLMode := "require" |};
     Config.Cleanup := {| CleanupConfig.DefaultTTL := 100 |} |}.

(** A read of the random source that succeeds. *)
Definition rnd : db.RandRead :=
  {| db.written := replicate 16 xab; db.failed := false |}.

(** A read of the random source that fails before writing a byte. *)
Definition rnd_down : db.RandRead := {| db.written := []; db.failed := true |}.

Definition acme : Project.t :=
  {| Project.ID := 1; Project.Name := "acme"; Project.CreatedAt := 0 |}.

(** One project, no database on either side, no outside failure. *)
Definition fresh : World :=
  {| sqlite := {| projects := [acme]; databases := [];
                  seq_projects := 1; seq_databases := 0 |};
     server := {| roles := ∅; owners := ∅ |};
     now := 1000; faults := []; trace := [] |}.

(** The two lookups and the four calls of the live create go through,
    the metadata insert fails, and then the connection for the
    compensating drop fails too. *)
Definition insert_and_drop_fail : World :=
  set_faults [None; None; None; None; None; None;
              Some "disk I/O error"; Some "connection refused"] fresh.

(** The same, but the compensating drop goes through. *)
Definition insert_fails : World :=
  set_faults [None; None; None; None; None; None; Some "disk I/O error"] fresh.

Definition pr42 : Database.t :=
  {| Database.ID := 1; Database.ProjectID := 1; Database.Name := "acme_pr_42";
     Database.UserName := "acme_pr_42_user";
     Database.Password := "abababababababababababababababab";
     Database.Env := "pr"; Database.PRNumber := Some 42;
     Database.CreatedAt := 1000; Database.ExpiresAt := Some 1100 |}.

Definition dev : Database.t :=
  {| Database.ID := 2; Database.ProjectID := 1; Database.Name := "acme_dev";
     Database.UserName := "acme_dev_user";
     Database.Password := "cdcdcdcdcdcdcdcdcdcdcdcdcdcdcdcd";
     Database.Env := "dev"; Database.PRNumber := None;
     Database.CreatedAt := 1000; Database.ExpiresAt := None |}.

(** [acme_pr_42] and [acme_dev] exist on both sides and the TTL of the
    first has run out. *)
Definition expired_pr (script : list (option string)) : World :=
  {| sqlite := {| projects := [acme]; databases := [pr42; dev];
                  seq_projects := 1; seq_databases := 2 |};
     server := {| roles := {["acme_pr_42_user"; "acme_dev_user"]};
                  owners := {["acme_pr_42" := "acme_pr_42_user";
                              "acme_dev" := "acme_dev_user"]} |};
     now := 2000; faults := script; trace := [] |}.


End Scenario.

(** The outcome the script holds for the next driver call, and the
    world once that call is made. *)
Definition next_fault (w : World) : error :=
  match faults w with
  | f :: _ => f
  | [] => None
  end.

Definition pop (w : World) : World := set_faults (drop 1 (faults w)) w.

(** ** Vocabulary of the invariants *)



(** One statement that changes the SQLite file; [P] is what is known of
    the rows inserted into [databases]. *)
Inductive store_step (P : Database.t → Prop) (s : SQLiteDB) : SQLiteDB → Prop :=
| step_insert_project name now row s' :
    Store.insert_project name now s = Ok (row, s') → store_step P s s'
| step_delete_project id :
    store_step P s (Store.delete_project id s)
| step_insert_database projectID name userName password env prNumber expiresAt now id s' :
    Store.insert_database projectID name userName password env prNumber expiresAt now s
      = Ok (id, s') →
    P {| Database.ID := id; Database.ProjectID := projectID; Database.Name := name;
         Database.UserName := userName; Database.Password := password;
         Database.Env := env; Database.PRNumber := prNumber; Database.CreatedAt := now;
         Database.ExpiresAt := expiresAt |} →
    store_step P s s'
| step_delete_database name :
    store_step P s (Store.delete_database name s).2.

(** A call changes the SQLite file through such statements only. *)
Definition Evolves {A} (P : Database.t → Prop) (m : M A) : Prop :=
  ∀ w, rtc (store_step P) (sqlite w) (sqlite (m w).2).





(** The calls that only look a row up. *)
Definition is_lookup (e : Event) : Prop :=
  match e with
  | EvGetProject _ | EvGetDatabase _ _ _ => True
  | _ => False
  end.

(** A call that reads the metadata and does nothing else: the SQLite
    file and the server are as before, and the only calls recorded are
    lookups. *)
Definition ReadOnly {A} (m : M A) : Prop :=
  ∀ w, sqlite (m w).2 = sqlite w ∧ server (m w).2 = server w
       ∧ ∃ evs, trace (m w).2 = (trace w ++ evs)%list ∧ Forall is_lookup evs.

(** * Properties *)

(** ** Naming and validation *)

Lemma ValidateEnv_accepts (env : string) :
  project.ValidateEnv env = None ↔ env ∈ ["prod"; "dev"; "staging"; "pr"].
Proof.
  unfold project.ValidateEnv, project.validEnvs. cbn [list_to_map foldr fst snd uncurry].
  rewrite !elem_of_cons, elem_of_nil.
  destruct (decide (env = "prod")) as [->|Hprod]; [split; [tauto | reflexivity]|].
  destruct (decide (env = "dev")) as [->|Hdev]; [split; [tauto | reflexivity]|].
  destruct (decide (env = "staging")) as [->|Hstaging]; [split; [tauto | reflexivity]|].
  destruct (decide (env = "pr")) as [->|Hpr]; [split; [tauto | reflexivity]|].
  rewrite !lookup_insert_ne, lookup_empty by done. cbn.
  split; [discriminate | tauto].
Qed.

(** C10. A token that does not start with [pr_] comes back from
    [ParseEnv] unchanged, with no PR number and no error, whatever the
    token is; whether it names an environment is decided by
    [ValidateEnv] alone, which accepts exactly [prod], [dev], [staging]
    and [pr]. *)
Theorem ParseEnv_without_pr_prefix (token : string) :
  strings.HasPrefix token "pr_" = false →
  project.ParseEnv token = (token, None, None)
  ∧ (project.ValidateEnv token = None ↔ token ∈ ["prod"; "dev"; "staging"; "pr"]).
Proof.
  intros Hprefix. split; [|apply ValidateEnv_accepts].
  unfold project.ParseEnv. now rewrite Hprefix.
Qed.

Lemma ParseEnv_without_pr_prefix_bogus :
  project.ParseEnv "bogus" = ("bogus", None, None)
  ∧ project.ValidateEnv "bogus" ≠ None.
Proof.
  destruct (ParseEnv_without_pr_prefix "bogus" eq_refl) as [Hparse Hvalid].
  split; [exact Hparse|].
  intros Hok. apply Hvalid in Hok.
  repeat (apply elem_of_cons in Hok as [Hok|Hok]; [discriminate Hok|]).
  inversion Hok.
Defined.

Lemma isDigit_not_layout (c : ascii) :
  fmt.isDigit c = true →
  Ascii.eqb c "010" = false ∧ fmt.isSpace c = false
  ∧ Ascii.eqb c "-" = false ∧ Ascii.eqb c "+" = false.
Proof.
  destruct c as [[] [] [] [] [] [] [] []]; cbv; intros H;
    first [discriminate H | repeat split].
Qed.

Lemma digitVal_range (c : ascii) : fmt.isDigit c = true → (0 ≤ fmt.digitVal c ≤ 9)%Z.
Proof.
  destruct c as [[] [] [] [] [] [] [] []]; cbv; intros H;
    first [discriminate H | split; discriminate].
Qed.

Lemma acceptDigits_all (ds : string) (acc : Z) :
  string_forall fmt.isDigit ds = true →
  (fmt.acceptDigits acc ds).2 = EmptyString ∧ ((0 ≤ acc)%Z → (0 ≤ (fmt.acceptDigits acc ds).1)%Z).
Proof.
  revert acc. induction ds as [|c ds IH]; intros acc Hall; cbn in *.
  - split; [reflexivity | auto].
  - apply andb_prop in Hall as [Hc Hds]. rewrite Hc.
    destruct (IH (10 * acc + fmt.digitVal c)%Z Hds) as [Hrest Hpos].
    split; [exact Hrest|]. intros Hacc. apply Hpos.
    pose proof (digitVal_range c Hc). lia.
Qed.

Lemma HasPrefix_pr (s : string) : strings.HasPrefix ("pr_" ++ s) "pr_" = true.
Proof. destruct s; reflexivity. Qed.

Lemma advance_pr (s : string) : fmt.advance "pr_" ("pr_" ++ s) = Ok s.
Proof. reflexivity. Qed.

(** A decimal numeral after [pr_] whose value fits an [int] is parsed in
    full: [ParseEnv] returns the environment [pr] and that value. *)
Lemma ParseEnv_pr_numeral (ds : string) :
  ds ≠ EmptyString → string_forall fmt.isDigit ds = true →
  ((fmt.acceptDigits 0 ds).1 ≤ fmt.maxInt64)%Z →
  project.ParseEnv ("pr_" ++ ds) = ("pr", Some (fmt.acceptDigits 0 ds).1, None).
Proof.
  intros Hne Hall Hmax.
  destruct (acceptDigits_all ds 0 Hall) as [_ Hpos]. specialize (Hpos ltac:(lia)).
  destruct ds as [|c ds]; [done|].
  pose proof Hall as Hall'. cbn in Hall'. apply andb_prop in Hall' as [Hc _].
  destruct (isDigit_not_layout c Hc) as (Hnl & Hsp & Hminus & Hplus).
  unfold project.ParseEnv, fmt.Sscanf_lit_d, fmt.scanInt.
  rewrite HasPrefix_pr, advance_pr.
  cbn [fmt.SkipSpace]. rewrite !Hnl, !Hsp. cbn [fmt.SkipSpace]. rewrite !Hnl, !Hsp.
  rewrite Hminus, Hplus, Hc.
  destruct (fmt.acceptDigits 0 (String c ds)) as [v rest]. cbn [fst] in *.
  assert ((fmt.minInt64 <=? v)%Z && (v <=? fmt.maxInt64)%Z = true) as ->; [|reflexivity].
  apply andb_true_intro. split; apply Z.leb_le; [|exact Hmax].
  unfold fmt.minInt64. lia.
Qed.

(** C7. The numeric suffix is not required to be a positive integer
    parsed in full: [ParseEnv] accepts a number followed by other text,
    a negative number and zero, and returns the environment [pr] with
    no error. Text with no number in front is refused. *)
Theorem ParseEnv_accepts_partial_and_negative :
  project.ParseEnv "pr_12abc" = ("pr", Some 12%Z, None)
  ∧ project.ParseEnv "pr_-5" = ("pr", Some (-5)%Z, None)
  ∧ project.ParseEnv "pr_0" = ("pr", Some 0%Z, None)
  ∧ project.ParseEnv "pr_123" = ("pr", Some 123%Z, None)
  ∧ project.ParseEnv "pr_abc"
    = (EmptyString, None, Some "invalid PR environment format, expected pr_<number>").
Proof. repeat split; vm_compute; reflexivity. Qed.

(** ** Secret generation *)

Lemma length_buffer (n : nat) (r : db.RandRead) : length (db.buffer n r) = n.
Proof. unfold db.buffer. rewrite length_take, length_app, length_replicate. lia. Qed.

Lemma length_EncodeToString (bs : list byte) :
  String.length (hex.EncodeToString bs) = (2 * length bs)%nat.
Proof. induction bs as [|b bs IH]; cbn; [reflexivity | rewrite IH; lia]. Qed.

Lemma hex_EncodeToString_lower (bs : list byte) :
  string_forall is_lower_hex (hex.EncodeToString bs) = true.
Proof.
  induction bs as [|b bs IH]; [reflexivity|].
  cbn [hex.EncodeToString string_forall]. rewrite IH.
  destruct b; reflexivity.
Qed.

Lemma length_string_app (a b : string) :
  String.length (a ++ b) = (String.length a + String.length b)%nat.
Proof.
  induction a as [|c a IH]; [reflexivity|].
  change (String c a ++ b) with (String c (a ++ b)).
  cbn [String.length]. now rewrite IH.
Qed.

(** C8 (as amended). When the read of the random source succeeds, the
    secret is the 32 lowercase hexadecimal digits of the 16 bytes read;
    when the read fails, no error is raised: the secret is the 34
    characters [fallback_password_] followed by the digits of the first
    8 bytes of the buffer. *)
Theorem GeneratePassword_outcomes (r : db.RandRead) :
  if db.failed r then
    db.GeneratePassword r
      = "fallback_password_" ++ hex.EncodeToString (take 8 (db.buffer 16 r))
    ∧ String.length (db.GeneratePassword r) = 34%nat
  else
    db.GeneratePassword r = hex.EncodeToString (db.buffer 16 r)
    ∧ String.length (db.GeneratePassword r) = 32%nat
    ∧ string_forall is_lower_hex (db.GeneratePassword r) = true.
Proof.
  unfold db.GeneratePassword. destruct (db.failed r).
  - split; [reflexivity|].
    rewrite length_string_app, length_EncodeToString, length_take, length_buffer.
    reflexivity.
  - split; [reflexivity|]. split.
    + rewrite length_EncodeToString, length_buffer. reflexivity.
    + apply hex_EncodeToString_lower.
Qed.

(** C8, the claim as first stated fails: with the random source down the
    call returns a value, and that value is neither 32 characters long
    nor hexadecimal. *)
Lemma GeneratePassword_falls_back :
  db.GeneratePassword Scenario.rnd_down = "fallback_password_0000000000000000"
  ∧ String.length (db.GeneratePassword Scenario.rnd_down) ≠ 32%nat
  ∧ string_forall is_lower_hex (db.GeneratePassword Scenario.rnd_down) = false.
Proof. repeat split; vm_compute; congruence. Qed.

(** ** What each call does to the world *)

Local Open Scope list_scope.

Lemma driver_eq (w : World) : driver w = (next_fault w, pop w).
Proof. destruct w as [s p t [|f fs] tr]; reflexivity. Qed.

Lemma answers_S (n : nat) (w : World) :
  answers (S n) w → next_fault w = None ∧ answers n (pop w).
Proof.
  unfold answers, next_fault, pop. destruct (faults w) as [|f fs]; cbn.
  - intros _. split; [reflexivity|]. rewrite take_nil. constructor.
  - intros H. inversion H; subst. split; [reflexivity|]. now rewrite drop_0.
Qed.

Lemma answers_set_trace (n : nat) (t : list Event) (w : World) :
  answers n (set_trace t w) ↔ answers n w.
Proof. reflexivity. Qed.

Lemma GetProject_eq (name : string) (w : World) :
  Store.GetProject name w =
    (match next_fault w with
     | Some e => Err ("failed to get project: " +:+ e)
     | None => Ok (List.find (Store.project_named name) (projects (sqlite w)))
     end,
     set_trace (trace w ++ [EvGetProject name]) (pop w)).
Proof.
  unfold Store.GetProject, mbind, M_bind, mret, M_ret, world, emit.
  rewrite driver_eq. destruct (next_fault w); reflexivity.
Qed.

Lemma GetDatabase_eq (projectID : Z) (env : string) (prNumber : option Z) (w : World) :
  Store.GetDatabase projectID env prNumber w =
    (match next_fault w with
     | Some e => Err ("failed to get database: " +:+ e)
     | None => Ok (List.find (Store.database_for projectID env prNumber)
                     (databases (sqlite w)))
     end,
     set_trace (trace w ++ [EvGetDatabase projectID env prNumber]) (pop w)).
Proof.
  unfold Store.GetDatabase, mbind, M_bind, mret, M_ret, world, emit.
  rewrite driver_eq. destruct (next_fault w); reflexivity.
Qed.

Lemma GetExpiredDatabases_eq (w : World) :
  Store.GetExpiredDatabases w =
    (match next_fault w with
     | Some e => Err ("failed to get expired databases: " +:+ e)
     | None => Ok (Store.order_by (λ d, default 0%Z (Database.ExpiresAt d))
                     (List.filter (Store.expired (now w)) (databases (sqlite w))))
     end,
     set_trace (trace w ++ [EvGetExpiredDatabases]) (pop w)).
Proof.
  unfold Store.GetExpiredDatabases, mbind, M_bind, mret, M_ret, world, emit.
  rewrite driver_eq. destruct (next_fault w); reflexivity.
Qed.

Lemma GetDatabasesOlderThan_eq (env : string) (olderThan : Z) (w : World) :
  Store.GetDatabasesOlderThan env olderThan w =
    (match next_fault w with
     | Some e => Err ("failed to get old databases: " +:+ e)
     | None => Ok (Store.order_by Database.CreatedAt
                     (List.filter (Store.older_than env (now w - olderThan))
                        (databases (sqlite w))))
     end,
     set_trace (trace w ++ [EvGetDatabasesOlderThan env olderThan]) (pop w)).
Proof.
  unfold Store.GetDatabasesOlderThan, mbind, M_bind, mret, M_ret, world, emit.
  rewrite driver_eq. destruct (next_fault w); reflexivity.
Qed.

(** The engine client never touches the metadata or the clock. *)
Lemma Exec_frame (st : db.Stmt) (w w' : World) (e : error) :
  PostgresClient.Exec st w = (e, w') →
  sqlite w' = sqlite w ∧ now w' = now w ∧ trace w' = trace w.
Proof.
  unfold PostgresClient.Exec, PostgresClient.answer, mbind, M_bind, mret, M_ret.
  rewrite driver_eq. destruct (next_fault w); [|destruct (db.run st _)];
    intros [= <- <-]; auto.
Qed.

Lemma logged_eq (ev : bool → Event) (body : M error) (w w1 : World) (e : error) :
  body w = (e, w1) →
  logged ev body w = (e, set_trace (trace w1 ++ [ev (succeeded e)]) w1).
Proof.
  intros Hbody. unfold logged, mbind, M_bind, mret, M_ret, emit. now rewrite Hbody.
Qed.

Ltac exec_frames :=
  repeat match goal with
    | H : PostgresClient.Exec _ _ = _ |- _ => apply Exec_frame in H; destruct H as (? & ? & ?)
    end.

Lemma pg_CreateDatabase_frame (dbName userName password : string) (w w' : World) (e : error) :
  PostgresClient.CreateDatabase dbName userName password w = (e, w') →
  sqlite w' = sqlite w ∧ now w' = now w
  ∧ trace w' = trace w ++ [EvPgCreateDatabase dbName userName (succeeded e)].
Proof.
  unfold PostgresClient.CreateDatabase.
  match goal with |- logged _ ?b _ = _ → _ => destruct (b w) as [e1 w1] eqn:Hbody end.
  rewrite (logged_eq _ _ _ _ _ Hbody). intros [= <- <-]. cbn.
  enough (sqlite w1 = sqlite w ∧ now w1 = now w ∧ trace w1 = trace w) as (-> & -> & ->)
    by auto.
  revert Hbody. unfold PostgresClient.connect, mbind, M_bind, mret, M_ret.
  rewrite driver_eq.
  repeat match goal with
    | |- context [match ?x with _ => _ end] => destruct x eqn:?
    | |- (let '(_, _) := ?x in _) = _ → _ => destruct x eqn:?
    end; intros [= <- <-]; exec_frames; cbn in *; repeat split; congruence.
Qed.

Lemma pg_DropDatabase_frame (dbName userName : string) (w w' : World) (e : error) :
  PostgresClient.DropDatabase dbName userName w = (e, w') →
  sqlite w' = sqlite w ∧ now w' = now w
  ∧ trace w' = trace w ++ [EvPgDropDatabase dbName userName (succeeded e)].
Proof.
  unfold PostgresClient.DropDatabase.
  match goal with |- logged _ ?b _ = _ → _ => destruct (b w) as [e1 w1] eqn:Hbody end.
  rewrite (logged_eq _ _ _ _ _ Hbody). intros [= <- <-]. cbn.
  enough (sqlite w1 = sqlite w ∧ now w1 = now w ∧ trace w1 = trace w) as (-> & -> & ->)
    by auto.
  revert Hbody. unfold PostgresClient.connect, mbind, M_bind, mret, M_ret.
  rewrite driver_eq.
  repeat match goal with
    | |- context [match ?x with _ => _ end] => destruct x eqn:?
    | |- (let '(_, _) := ?x in _) = _ → _ => destruct x eqn:?
    end; intros [= <- <-]; exec_frames; cbn in *; repeat split; congruence.
Qed.

Lemma filter_none_removed {A} (p : A → bool) (l : list A) :
  length (List.filter p l) = 0%nat → List.filter (λ x, negb (p x)) l = l.
Proof.
  induction l as [|x l IH]; cbn; [reflexivity|].
  destruct (p x); cbn; [discriminate|]. intros H. now rewrite IH.
Qed.

Lemma delete_database_unchanged (name : string) (s : SQLiteDB) :
  (Store.delete_database name s).1 = 0%Z → (Store.delete_database name s).2 = s.
Proof.
  unfold Store.delete_database. cbn. intros H.
  rewrite filter_none_removed by lia. now destruct s.
Qed.

Lemma Store_DeleteDatabase_frame (name : string) (w w' : World) (e : error) :
  Store.DeleteDatabase name w = (e, w') →
  server w' = server w ∧ now w' = now w
  ∧ trace w' = trace w ++ [EvStoreDeleteDatabase name (succeeded e)]
  ∧ projects (sqlite w') = projects (sqlite w)
  ∧ databases (sqlite w') =
      (if succeeded e
       then List.filter (λ d, negb (Store.database_named name d)) (databases (sqlite w))
       else databases (sqlite w)).
Proof.
  unfold Store.DeleteDatabase.
  match goal with |- logged _ ?b _ = _ → _ => destruct (b w) as [e1 w1] eqn:Hbody end.
  rewrite (logged_eq _ _ _ _ _ Hbody). intros [= <- <-]. cbn.
  revert Hbody. unfold mbind, M_bind, mret, M_ret. rewrite driver_eq.
  destruct (next_fault w) as [msg|].
  - intros [= <- <-]. cbn. auto.
  - destruct (Store.delete_database name (sqlite (pop w))) as [affected s] eqn:Hdel.
    destruct (affected =? 0)%Z eqn:Hzero; intros [= <- <-]; cbn.
    + apply Z.eqb_eq in Hzero. subst affected.
      pose proof (delete_database_unchanged name (sqlite (pop w))) as Hsame.
      rewrite Hdel in Hsame. cbn in Hsame. rewrite Hsame by reflexivity. auto.
    + unfold Store.delete_database in Hdel. injection Hdel as _ <-. cbn. auto.
Qed.

Lemma Store_CreateDatabase_frame (projectID : Z) (name userName password env : string)
    (prNumber expiresAt : option Z) (w w' : World) (r : Result Database.t) :
  Store.CreateDatabase projectID name userName password env prNumber expiresAt w = (r, w') →
  server w' = server w ∧ now w' = now w
  ∧ trace w' = trace w ++ [EvStoreCreateDatabase name (negb (is_err r))]
  ∧ match r with
    | Err _ => sqlite w' = sqlite w
    | Ok row =>
        projects (sqlite w') = projects (sqlite w)
        ∧ databases (sqlite w') = databases (sqlite w) ++ [row]
        ∧ row = {| Database.ID := seq_databases (sqlite w) + 1;
                   Database.ProjectID := projectID; Database.Name := name;
                   Database.UserName := userName; Database.Password := password;
                   Database.Env := env; Database.PRNumber := prNumber;
                   Database.CreatedAt := now w; Database.ExpiresAt := expiresAt |}
    end.
Proof.
  unfold Store.CreateDatabase, mbind, M_bind, mret, M_ret, emit. rewrite driver_eq.
  destruct (next_fault w) as [msg|].
  - intros [= <- <-]. cbn. auto.
  - destruct (Store.insert_database _ _ _ _ _ _ _ _ _) as [[id s]|msg] eqn:Hins;
      intros [= <- <-]; cbn; [|auto].
    unfold Store.insert_database in Hins. cbn in Hins.
    destruct (existsb _ _); [discriminate|].
    destruct (negb _); [discriminate|].
    injection Hins as <- <-. cbn. repeat split; reflexivity.
Qed.

(** ** Deleting one database *)

(** C2. On an existing project and database record, with the store
    answering the two lookups: the call drops the live database first
    and asks the store to delete the record only when that drop reported
    success; when the drop fails the call returns an error and the
    metadata is exactly what it was, the record still in it; and when
    the call returns no error no record of that name is left. *)
Theorem DeleteDatabase_drops_before_forgetting
    (projectName env : string) (prNumber : option Z) (w : World)
    (p : Project.t) (d : Database.t) :
  project.ValidateEnv env = None →
  answers 2 w →
  List.find (Store.project_named projectName) (projects (sqlite w)) = Some p →
  List.find (Store.database_for (Project.ID p) env prNumber) (databases (sqlite w)) = Some d →
  ∀ (r : error) (w' : World),
    Manager.DeleteDatabase projectName env prNumber w = (r, w') →
    ∃ dropped : bool,
      trace w' = trace w
        ++ [EvGetProject projectName; EvGetDatabase (Project.ID p) env prNumber;
            EvPgDropDatabase (Database.Name d) (Database.UserName d) dropped]
        ++ (if dropped then [EvStoreDeleteDatabase (Database.Name d) (succeeded r)] else [])
      ∧ (dropped = false →
           r ≠ None ∧ sqlite w' = sqlite w ∧ d ∈ databases (sqlite w'))
      ∧ (r = None →
           dropped = true
           ∧ ∀ d', d' ∈ databases (sqlite w') → Database.Name d' ≠ Database.Name d).
Proof.
  intros Henv Hans Hp Hd r w'.
  apply answers_S in Hans as [Hf1 Hans]. apply answers_S in Hans as [Hf2 _].
  unfold Manager.DeleteDatabase. rewrite Henv. unfold mbind, M_bind, mret, M_ret.
  rewrite GetProject_eq, Hf1, Hp, GetDatabase_eq. cbn [sqlite set_trace].
  change (next_fault (set_trace _ (pop w))) with (next_fault (pop w)).
  rewrite Hf2. change (sqlite (pop w)) with (sqlite w). rewrite Hd.
  destruct (PostgresClient.DropDatabase _ _ _) as [e w3] eqn:Hdrop.
  apply pg_DropDatabase_frame in Hdrop as (Hs3 & Hn3 & Ht3). cbn in Hs3, Ht3.
  destruct e as [msg|]; cbn in Ht3.
  - intros [= <- <-]. exists false. split; [|split].
    + rewrite Ht3, <- !app_assoc. reflexivity.
    + intros _. split; [discriminate|]. split; [exact Hs3|].
      rewrite Hs3. apply list_elem_of_In. eapply List.find_some, Hd.
    + discriminate.
  - destruct (Store.DeleteDatabase _ _) as [e' w4] eqn:Hdel.
    apply Store_DeleteDatabase_frame in Hdel as (_ & _ & Ht4 & _ & Hd4).
    destruct e' as [msg|]; intros [= <- <-]; exists true; cbn in *.
    + split; [|split]; [|discriminate..].
      rewrite Ht4, Ht3, <- !app_assoc. reflexivity.
    + split; [|split]; [|discriminate|].
      * rewrite Ht4, Ht3, <- !app_assoc. reflexivity.
      * intros _. split; [reflexivity|]. intros d' Hin. rewrite Hd4 in Hin.
        apply list_elem_of_In, List.filter_In in Hin as [_ Hne].
        unfold Store.database_named in Hne.
        intros Heq. rewrite Heq, String.eqb_refl in Hne. discriminate.
Qed.

Lemma DeleteDatabase_drops_before_forgetting_acme_dev :
  let run := Manager.DeleteDatabase "acme" "dev" None (Scenario.expired_pr []) in
  ∃ dropped : bool,
    trace run.2 = trace (Scenario.expired_pr [])
      ++ [EvGetProject "acme"; EvGetDatabase 1 "dev" None;
          EvPgDropDatabase "acme_dev" "acme_dev_user" dropped]
      ++ (if dropped then [EvStoreDeleteDatabase "acme_dev" (succeeded run.1)] else [])
    ∧ (dropped = false →
         run.1 ≠ None ∧ sqlite run.2 = sqlite (Scenario.expired_pr [])
         ∧ Scenario.dev ∈ databases (sqlite run.2))
    ∧ (run.1 = None →
         dropped = true
         ∧ ∀ d', d' ∈ databases (sqlite run.2)
                 → Database.Name d' ≠ Database.Name Scenario.dev).
Proof.
  intros run.
  apply (DeleteDatabase_drops_before_forgetting "acme" "dev" None
           (Scenario.expired_pr []) Scenario.acme Scenario.dev).
  - vm_compute; reflexivity.
  - constructor.
  - reflexivity.
  - reflexivity.
  - apply surjective_pairing.
Defined.

(** ** Creating a database *)

(** C1 (as amended). Past validation and the two lookups (the project
    exists, no record exists yet), a create goes one of three ways.
    When the live create fails, the call returns its error and the
    metadata is untouched: the store is not even asked. When the live
    create succeeds and the metadata write fails, the call attempts the
    compensating drop and then returns the error of the metadata write,
    the same error whether the drop succeeded or failed. Otherwise both
    sides were written and the call succeeds. *)
Theorem CreateDatabase_failure_paths
    (cfg : Config.t) (rnd : db.RandRead) (projectName env : string)
    (prNumber : option Z) (w : World) (p : Project.t) :
  project.ValidateEnv env = None →
  (env = "pr" → is_Some prNumber) →
  answers 2 w →
  List.find (Store.project_named projectName) (projects (sqlite w)) = Some p →
  List.find (Store.database_for (Project.ID p) env prNumber) (databases (sqlite w)) = None →
  ∀ (r : Result DatabaseInfo.t) (w' : World),
    Manager.CreateDatabase cfg rnd projectName env prNumber w = (r, w') →
    let dbName := project.DatabaseName projectName env prNumber in
    let userName := project.UserName dbName in
    let password := db.GeneratePassword rnd in
    let expiresAt :=
      if String.eqb env "pr"
      then Some (now w + CleanupConfig.DefaultTTL (Config.Cleanup cfg))%Z else None in
    let lookups := [EvGetProject projectName; EvGetDatabase (Project.ID p) env prNumber] in
    let w1 := (Store.GetDatabase (Project.ID p) env prNumber
                 (Store.GetProject projectName w).2).2 in
    (∃ e, PostgresClient.CreateDatabase dbName userName password w1 = (Some e, w')
          ∧ r = Err ("failed to create database: " +:+ e)
          ∧ sqlite w' = sqlite w
          ∧ trace w' = trace w ++ lookups ++ [EvPgCreateDatabase dbName userName false])
    ∨ (∃ w2 w3 e dropErr,
          PostgresClient.CreateDatabase dbName userName password w1 = (None, w2)
          ∧ Store.CreateDatabase (Project.ID p) dbName userName password env
              prNumber expiresAt w2 = (Err e, w3)
          ∧ PostgresClient.DropDatabase dbName userName w3 = (dropErr, w')
          ∧ r = Err ("failed to store database metadata: " +:+ e)
          ∧ sqlite w' = sqlite w
          ∧ trace w' = trace w ++ lookups
              ++ [EvPgCreateDatabase dbName userName true;
                  EvStoreCreateDatabase dbName false;
                  EvPgDropDatabase dbName userName (succeeded dropErr)])
    ∨ (∃ info, r = Ok info
          ∧ trace w' = trace w ++ lookups
              ++ [EvPgCreateDatabase dbName userName true;
                  EvStoreCreateDatabase dbName true]).
Proof.
  intros Henv Hpr Hans Hp Hd r w' Hrun dbName userName password expiresAt lookups w1.
  apply answers_S in Hans as [Hf1 Hans]. apply answers_S in Hans as [Hf2 _].
  assert (String.eqb env "pr" && negb (bool_decide (is_Some prNumber)) = false) as Hgate.
  { destruct (String.eqb_spec env "pr") as [Heq|]; [|reflexivity].
    rewrite bool_decide_eq_true_2 by auto. reflexivity. }
  assert (w1 = set_trace
            (trace (set_trace (trace w ++ [EvGetProject projectName]) (pop w))
             ++ [EvGetDatabase (Project.ID p) env prNumber])
            (pop (set_trace (trace w ++ [EvGetProject projectName]) (pop w)))) as Hw1.
  { subst w1. rewrite GetProject_eq. cbn [snd]. now rewrite GetDatabase_eq. }
  clearbody w1. subst w1.
  revert Hrun. unfold Manager.CreateDatabase. rewrite Henv, Hgate.
  unfold mbind, M_bind, mret, M_ret, time_Now.
  rewrite GetProject_eq, Hf1, Hp, GetDatabase_eq. cbn [sqlite set_trace snd].
  change (next_fault (set_trace _ (pop w))) with (next_fault (pop w)).
  rewrite Hf2. change (sqlite (pop w)) with (sqlite w). rewrite Hd.
  cbn [now set_trace pop set_faults].
  fold dbName. fold userName. fold password. fold expiresAt.
  match goal with |- context [PostgresClient.CreateDatabase _ _ _ ?w0] => set (w1 := w0) end.
  destruct (PostgresClient.CreateDatabase dbName userName password w1) as [e w2] eqn:Hcreate.
  pose proof Hcreate as Hc. apply pg_CreateDatabase_frame in Hc as (Hs2 & Hn2 & Ht2).
  cbn in Hs2, Hn2, Ht2.
  destruct e as [msg|]; cbn in Ht2.
  - intros [= <- <-]. left. exists msg.
    split; [reflexivity|]. split; [reflexivity|]. split; [exact Hs2|].
    rewrite Ht2. subst lookups. rewrite <- !app_assoc. reflexivity.
  - destruct (Store.CreateDatabase _ _ _ _ _ _ _ w2) as [row w3] eqn:Hstore.
    pose proof Hstore as Hst. apply Store_CreateDatabase_frame in Hst as (_ & _ & Ht3 & Hs3).
    destruct row as [row|msg]; cbn in Ht3.
    + intros [= <- <-]. right. right. eexists. split; [reflexivity|].
      rewrite Ht3, Ht2. subst lookups. rewrite <- !app_assoc. reflexivity.
    + destruct (PostgresClient.DropDatabase dbName userName w3) as [dropErr w4] eqn:Hdrop.
      pose proof Hdrop as Hdr. apply pg_DropDatabase_frame in Hdr as (Hs4 & _ & Ht4).
      intros [= <- <-]. right. left. exists w2, w3, msg, dropErr.
      split; [reflexivity|]. split; [exact Hstore|]. split; [exact Hdrop|].
      split; [reflexivity|]. split; [congruence|].
      rewrite Ht4, Ht3, Ht2. subst lookups. rewrite <- !app_assoc. reflexivity.
Qed.

Lemma CreateDatabase_failure_paths_orphan :
  let w := Scenario.insert_and_drop_fail in
  let run := Manager.CreateDatabase Scenario.cfg Scenario.rnd "acme" "pr" (Some 42%Z) w in
  let dbName := project.DatabaseName "acme" "pr" (Some 42%Z) in
  let userName := project.UserName dbName in
  let password := db.GeneratePassword Scenario.rnd in
  let expiresAt :=
    if String.eqb "pr" "pr"
    then Some (now w + CleanupConfig.DefaultTTL (Config.Cleanup Scenario.cfg))%Z
    else None in
  let lookups := [EvGetProject "acme"; EvGetDatabase (Project.ID Scenario.acme) "pr" (Some 42%Z)] in
  let w1 := (Store.GetDatabase (Project.ID Scenario.acme) "pr" (Some 42%Z)
               (Store.GetProject "acme" w).2).2 in
  (∃ e, PostgresClient.CreateDatabase dbName userName password w1 = (Some e, run.2)
        ∧ run.1 = Err ("failed to create database: " +:+ e)
        ∧ sqlite run.2 = sqlite w
        ∧ trace run.2 = trace w ++ lookups ++ [EvPgCreateDatabase dbName userName false])
  ∨ (∃ w2 w3 e dropErr,
        PostgresClient.CreateDatabase dbName userName password w1 = (None, w2)
        ∧ Store.CreateDatabase (Project.ID Scenario.acme) dbName userName password "pr"
            (Some 42%Z) expiresAt w2 = (Err e, w3)
        ∧ PostgresClient.DropDatabase dbName userName w3 = (dropErr, run.2)
        ∧ run.1 = Err ("failed to store database metadata: " +:+ e)
        ∧ sqlite run.2 = sqlite w
        ∧ trace run.2 = trace w ++ lookups
            ++ [EvPgCreateDatabase dbName userName true;
                EvStoreCreateDatabase dbName false;
                EvPgDropDatabase dbName userName (succeeded dropErr)])
  ∨ (∃ info, run.1 = Ok info
        ∧ trace run.2 = trace w ++ lookups
            ++ [EvPgCreateDatabase dbName userName true;
                EvStoreCreateDatabase dbName true]).
Proof.
  intros w run.
  apply (CreateDatabase_failure_paths Scenario.cfg Scenario.rnd "acme" "pr" (Some 42%Z)
           w Scenario.acme).
  - vm_compute; reflexivity.
  - intros _. eexists; reflexivity.
  - repeat constructor.
  - reflexivity.
  - reflexivity.
  - apply surjective_pairing.
Defined.

(** C1, the claim as first stated fails: the metadata write fails and
    the compensating drop fails too, the live database and its role are
    still on the server, and the error returned is the plain error of
    the metadata write, the very error returned when the drop works. *)
Lemma CreateDatabase_hides_failed_compensation :
  let orphaned := Manager.CreateDatabase Scenario.cfg Scenario.rnd "acme" "pr" (Some 42%Z)
                    Scenario.insert_and_drop_fail in
  let cleaned := Manager.CreateDatabase Scenario.cfg Scenario.rnd "acme" "pr" (Some 42%Z)
                   Scenario.insert_fails in
  orphaned.1
    = Err "failed to store database metadata: failed to create database: disk I/O error"
  ∧ last (trace orphaned.2) = Some (EvPgDropDatabase "acme_pr_42" "acme_pr_42_user" false)
  ∧ owners (server orphaned.2) !! "acme_pr_42" = Some "acme_pr_42_user"
  ∧ databases (sqlite orphaned.2) = []
  ∧ cleaned.1 = orphaned.1
  ∧ last (trace cleaned.2) = Some (EvPgDropDatabase "acme_pr_42" "acme_pr_42_user" true)
  ∧ owners (server cleaned.2) !! "acme_pr_42" = None.
Proof. vm_compute. repeat split. Qed.

(** What a successful create returns and records. *)
Lemma CreateDatabase_success
    (cfg : Config.t) (rnd : db.RandRead) (projectName env : string)
    (prNumber : option Z) (w w' : World) (info : DatabaseInfo.t) :
  Manager.CreateDatabase cfg rnd projectName env prNumber w = (Ok info, w') →
  let dbName := project.DatabaseName projectName env prNumber in
  let userName := project.UserName dbName in
  let password := db.GeneratePassword rnd in
  let expiresAt :=
    if String.eqb env "pr"
    then Some (now w + CleanupConfig.DefaultTTL (Config.Cleanup cfg))%Z else None in
  project.ValidateEnv env = None
  ∧ (env = "pr" → is_Some prNumber)
  ∧ info = {| DatabaseInfo.Project := projectName; DatabaseInfo.Env := env;
              DatabaseInfo.PRNumber := prNumber; DatabaseInfo.DatabaseName := dbName;
              DatabaseInfo.UserName := userName; DatabaseInfo.Password := password;
              DatabaseInfo.Host := PostgresConfig.Host (Config.Postgres cfg);
              DatabaseInfo.Port := PostgresConfig.Port (Config.Postgres cfg);
              DatabaseInfo.ConnString :=
                db.ConnectionString (PostgresConfig.Host (Config.Postgres cfg))
                  (PostgresConfig.Port (Config.Postgres cfg)) dbName userName password;
              DatabaseInfo.CreatedAt := now w; DatabaseInfo.ExpiresAt := expiresAt |}
  ∧ ∃ row, databases (sqlite w') = databases (sqlite w) ++ [row]
      ∧ Database.Name row = dbName ∧ Database.UserName row = userName
      ∧ Database.Env row = env ∧ Database.PRNumber row = prNumber
      ∧ Database.CreatedAt row = now w ∧ Database.ExpiresAt row = expiresAt.
Proof.
  intros Hrun dbName userName password expiresAt. revert Hrun.
  unfold Manager.CreateDatabase.
  destruct (project.ValidateEnv env) as [msg|] eqn:Henv; [intros [=]|].
  destruct (String.eqb env "pr" && negb (bool_decide (is_Some prNumber))) eqn:Hgate;
    [intros [=]|].
  unfold mbind, M_bind, mret, M_ret, time_Now.
  rewrite GetProject_eq. destruct (next_fault w); [intros [=]|].
  destruct (List.find _ (projects _)) as [p|]; [|intros [=]].
  rewrite GetDatabase_eq. cbn [sqlite set_trace].
  destruct (next_fault _); [intros [=]|].
  change (sqlite (pop w)) with (sqlite w).
  destruct (List.find _ (databases _)); [intros [=]|].
  cbn [now set_trace pop set_faults].
  fold dbName. fold userName. fold password. fold expiresAt.
  destruct (PostgresClient.CreateDatabase _ _ _ _) as [[msg|] w2] eqn:Hcreate;
    [intros [=]|].
  apply pg_CreateDatabase_frame in Hcreate as (Hs2 & Hn2 & _). cbn in Hs2, Hn2.
  destruct (Store.CreateDatabase _ _ _ _ _ _ _ w2) as [[row|msg] w3] eqn:Hstore.
  - apply Store_CreateDatabase_frame in Hstore as (_ & _ & _ & _ & Hrows & Hrow).
    intros [= <- <-]. split; [reflexivity|]. split.
    + intros ->. cbn in Hgate. destruct prNumber; [eauto | discriminate].
    + rewrite Hs2, Hn2 in *. split; [now rewrite Hrow|].
      exists row. split; [exact Hrows|]. rewrite Hrow. cbn. repeat split.
  - destruct (PostgresClient.DropDatabase _ _ _). intros [=].
Qed.

(** C5. The orchestrator checks that a PR number is present, not that
    it lies in (0, 1_000_000]: with the environment [pr] and the PR
    number 0, -5 or 1_000_001 the call goes to the store and to the
    server and succeeds. *)
Theorem CreateDatabase_accepts_any_pr_number :
  let run n := Manager.CreateDatabase Scenario.cfg Scenario.rnd "acme" "pr" (Some n)
                 Scenario.fresh in
  is_err (run 0%Z).1 = false
  ∧ trace (run 0%Z).2
    = [EvGetProject "acme"; EvGetDatabase 1 "pr" (Some 0%Z);
       EvPgCreateDatabase "acme_pr_0" "acme_pr_0_user" true;
       EvStoreCreateDatabase "acme_pr_0" true]
  ∧ Database.Name <$> databases (sqlite (run 0%Z).2) = ["acme_pr_0"]
  ∧ is_err (run (-5)%Z).1 = false
  ∧ Database.Name <$> databases (sqlite (run (-5)%Z).2) = ["acme_pr_-5"]
  ∧ is_err (run 1000001%Z).1 = false
  ∧ Database.Name <$> databases (sqlite (run 1000001%Z).2) = ["acme_pr_1000001"].
Proof. vm_compute. repeat split. Qed.

(** The part of C5 the orchestrator does: a missing PR number is
    refused before anything is asked of the store or the server. *)
Lemma CreateDatabase_requires_pr_number
    (cfg : Config.t) (rnd : db.RandRead) (projectName : string) (w : World) :
  Manager.CreateDatabase cfg rnd projectName "pr" None w
    = (Err "PR number is required for PR databases", w).
Proof. reflexivity. Qed.

(** The part of C5 the REST handler does: a PR number outside
    (0, 1_000_000] is answered with status 400 before the orchestrator
    is called. *)
Lemma createDatabase_rejects_out_of_range
    (cfg : Config.t) (rnd : db.RandRead) (projectName env : string) (n : Z) (w : World) :
  env ≠ EmptyString → (n ≤ 0 ∨ Server.MaxPRNumber < n)%Z →
  ∃ message,
    Server.createDatabase cfg rnd projectName
      (Some {| CreateDatabaseRequest.Env := env; CreateDatabaseRequest.PRNumber := Some n |}) w
    = (Server.writeError Server.StatusBadRequest message, w).
Proof.
  intros Henv Hrange. unfold Server.createDatabase. cbn.
  destruct (String.eqb_spec env EmptyString); [done|].
  destruct (Z.leb_spec n 0); [eauto|].
  destruct (Z.gtb_spec n Server.MaxPRNumber); [eauto | lia].
Qed.

(** C6. A request for the environment [dev] that carries a PR number
    passes the handler and the orchestrator, and the record stored has
    the environment [dev] and the PR number 5. *)
Theorem createDatabase_stores_pr_number_for_dev :
  let run := Server.createDatabase Scenario.cfg Scenario.rnd "acme"
               (Some {| CreateDatabaseRequest.Env := "dev";
                        CreateDatabaseRequest.PRNumber := Some 5%Z |})
               Scenario.fresh in
  (∃ info, run.1 = Server.writeJSON 201 info
           ∧ DatabaseInfo.Env info = "dev" ∧ DatabaseInfo.PRNumber info = Some 5%Z)
  ∧ (λ d, (Database.Name d, Database.Env d, Database.PRNumber d, Database.ExpiresAt d))
      <$> databases (sqlite run.2)
    = [("acme_dev", "dev", Some 5%Z, None)].
Proof. vm_compute. split; [eexists; repeat split | reflexivity]. Qed.

(** The part of C6 that holds of every successful create: the record
    has an expiry, the time of the call plus the TTL, exactly when the
    environment is [pr], and a [pr] record has a PR number. *)
Lemma CreateDatabase_expiry
    (cfg : Config.t) (rnd : db.RandRead) (projectName env : string)
    (prNumber : option Z) (w w' : World) (info : DatabaseInfo.t) :
  Manager.CreateDatabase cfg rnd projectName env prNumber w = (Ok info, w') →
  ∃ row, databases (sqlite w') = databases (sqlite w) ++ [row]
    ∧ Database.ExpiresAt row
      = (if String.eqb env "pr"
         then Some (Database.CreatedAt row + CleanupConfig.DefaultTTL (Config.Cleanup cfg))%Z
         else None)
    ∧ (Database.Env row = "pr" → is_Some (Database.PRNumber row)).
Proof.
  intros Hrun. apply CreateDatabase_success in Hrun as (_ & Hpr & _ & row & Hrows & Hrow).
  destruct Hrow as (_ & _ & Henv & Hnum & Hcreated & Hexp).
  exists row. split; [exact Hrows|]. split.
  - now rewrite Hexp, Hcreated.
  - rewrite Henv, Hnum. exact Hpr.
Qed.



(** ** Cleanup *)

Lemma filter_keeps_nil (l : list Database.t) : List.filter (keeps []) l = l.
Proof.
  induction l as [|d l IH]; [reflexivity|]. cbn [List.filter].
  unfold keeps at 1. rewrite bool_decide_eq_true_2 by apply not_elem_of_nil.
  now rewrite IH.
Qed.

Lemma keeps_cons (n : string) (names : list string) (d : Database.t) :
  keeps (n :: names) d = negb (Store.database_named n d) && keeps names d.
Proof.
  unfold keeps, Store.database_named.
  destruct (String.eqb_spec (Database.Name d) n) as [Heq|Hne]; cbn [negb andb].
  - apply bool_decide_eq_false_2. intros Hnot. apply Hnot, elem_of_cons. now left.
  - apply bool_decide_ext. rewrite not_elem_of_cons. tauto.
Qed.

Lemma filter_keeps_cons (n : string) (names : list string) (l : list Database.t) :
  List.filter (keeps names) (List.filter (λ d, negb (Store.database_named n d)) l)
  = List.filter (keeps (n :: names)) l.
Proof.
  induction l as [|d l IH]; [reflexivity|]. cbn [List.filter].
  rewrite keeps_cons. destruct (negb (Store.database_named n d)); cbn [andb List.filter].
  - destruct (keeps names d); now rewrite IH.
  - exact IH.
Qed.

(** The loop of the cleanup: every record gets its drop; the store is
    asked to delete it only when the drop worked; whatever happens to
    one record the loop goes on to the next; and the names returned are
    those of the records removed from both sides. The rows that stay in
    the metadata are those of the other names. *)
Lemma deleteEach_run (records : list Database.t) :
  ∀ (deleted : list string) (w w' : World) (out : list string),
    Manager.deleteEach records deleted w = (out, w') →
    ∃ os : list Outcome,
      length os = length records
      ∧ out = deleted ++ removed_names records os
      ∧ trace w' = trace w ++ concat (zip_with processing records os)
      ∧ now w' = now w
      ∧ projects (sqlite w') = projects (sqlite w)
      ∧ databases (sqlite w')
        = List.filter (keeps (removed_names records os)) (databases (sqlite w)).
Proof.
  induction records as [|d rest IH]; intros deleted w w' out.
  - intros [= <- <-]. exists []. cbn.
    rewrite !app_nil_r, filter_keeps_nil. repeat split.
  - cbn [Manager.deleteEach]. unfold mbind, M_bind.
    destruct (PostgresClient.DropDatabase _ _ w) as [dropErr w1] eqn:Hdrop.
    apply pg_DropDatabase_frame in Hdrop as (Hs1 & Hn1 & Ht1).
    destruct dropErr as [msg|]; cbn in Ht1.
    + intros Hrest. apply IH in Hrest as (os & Hlen & Hout & Ht & Hn & Hp & Hd).
      exists (DropFailed :: os). cbn.
      rewrite Ht, Ht1, Hn, Hn1, Hp, Hd, Hs1, Hlen, <- !app_assoc. repeat split. exact Hout.
    + destruct (Store.DeleteDatabase _ w1) as [delErr w2] eqn:Hdel.
      apply Store_DeleteDatabase_frame in Hdel as (_ & Hn2 & Ht2 & Hp2 & Hd2).
      destruct delErr as [msg|]; cbn in Ht2, Hd2.
      * intros Hrest. apply IH in Hrest as (os & Hlen & Hout & Ht & Hn & Hp & Hd).
        exists (MetadataDeleteFailed :: os). cbn.
        rewrite Ht, Ht2, Ht1, Hn, Hn2, Hn1, Hp, Hp2, Hd, Hd2, Hs1, Hlen, <- !app_assoc.
        repeat split. exact Hout.
      * intros Hrest. apply IH in Hrest as (os & Hlen & Hout & Ht & Hn & Hp & Hd).
        exists (Removed :: os). cbn.
        rewrite Ht, Ht2, Ht1, Hn, Hn2, Hn1, Hp, Hp2, Hd, Hd2, Hs1, Hlen, <- !app_assoc.
        rewrite filter_keeps_cons. repeat split.
        rewrite Hout, <- app_assoc. reflexivity.
Qed.

Lemma expired_spec (t0 : Z) (d : Database.t) :
  Store.expired t0 d = true ↔ ∃ t, Database.ExpiresAt d = Some t ∧ (t < t0)%Z.
Proof.
  unfold Store.expired, Store.before. destruct (Database.ExpiresAt d) as [t|].
  - rewrite Z.ltb_lt. split; [eauto | now intros (? & [= <-] & ?)].
  - split; [discriminate | now intros (? & [=] & _)].
Qed.

Lemma older_than_spec (env : string) (cutoff : Z) (d : Database.t) :
  Store.older_than env cutoff d = true
  ↔ Database.Env d = env ∧ (Database.CreatedAt d < cutoff)%Z.
Proof.
  unfold Store.older_than, Store.before.
  rewrite andb_true_iff, String.eqb_eq, Z.ltb_lt. reflexivity.
Qed.

Lemma qualifies_spec (w : World) (olderThan : Z) (d : Database.t) :
  qualifies w olderThan d
  ↔ Store.expired (now w) d = true
    ∨ Store.older_than "pr" (now w - olderThan) d = true.
Proof. unfold qualifies. now rewrite expired_spec, older_than_spec. Qed.

Lemma order_by_elem (key : Database.t → Z) (rows : list Database.t) (d : Database.t) :
  d ∈ Store.order_by key rows ↔ d ∈ rows.
Proof. unfold Store.order_by. now rewrite merge_sort_Permutation. Qed.

Lemma elem_of_selected (key : Database.t → Z) (f : Database.t → bool)
    (rows : list Database.t) (d : Database.t) :
  d ∈ Store.order_by key (List.filter f rows) ↔ d ∈ rows ∧ f d = true.
Proof. rewrite order_by_elem, !list_elem_of_In. apply List.filter_In. Qed.

Lemma collect_lookup (rows : list Database.t) :
  ∀ (m : gmap string Database.t) (k : string) (d : Database.t),
    Manager.collect m rows !! k = Some d →
    m !! k = Some d ∨ (d ∈ rows ∧ Database.Name d = k).
Proof.
  induction rows as [|r rows IH]; intros m k d; cbn; [auto|].
  intros [Hm | [Hin Hname]]%IH.
  - apply lookup_insert_Some in Hm as [[<- <-] | [_ Hm]]; [right | now left].
    split; [apply elem_of_cons; now left | reflexivity].
  - right. split; [apply elem_of_cons; now right | exact Hname].
Qed.

Lemma collect_is_Some (rows : list Database.t) :
  ∀ (m : gmap string Database.t) (k : string),
    is_Some (Manager.collect m rows !! k)
    ↔ is_Some (m !! k) ∨ k ∈ Database.Name <$> rows.
Proof.
  induction rows as [|r rows IH]; intros m k; cbn.
  - rewrite elem_of_nil. tauto.
  - rewrite IH, lookup_insert_is_Some, elem_of_cons.
    destruct (decide (Database.Name r = k)); intuition congruence.
Qed.

Lemma names_of_values (l : list (string * Database.t)) :
  (∀ k d, (k, d) ∈ l → Database.Name d = k) → Database.Name <$> l.*2 = l.*1.
Proof.
  induction l as [|[k d] l IH]; intros Hkeys; [reflexivity|]. cbn.
  rewrite (Hkeys k d) by (apply elem_of_cons; now left).
  f_equal. apply IH. intros k' d' Hin. apply Hkeys, elem_of_cons. now right.
Qed.

(** Combine and deduplicate: the candidates carry each name once, they
    come from the two lists, and every name of the two lists is there. *)
Lemma candidates_spec (expired oldPR : list Database.t) :
  NoDup (Database.Name <$> Manager.candidates expired oldPR)
  ∧ (∀ d, d ∈ Manager.candidates expired oldPR → d ∈ expired ∨ d ∈ oldPR)
  ∧ (∀ n, n ∈ Database.Name <$> Manager.candidates expired oldPR
          ↔ n ∈ Database.Name <$> expired ∨ n ∈ Database.Name <$> oldPR).
Proof.
  unfold Manager.candidates.
  set (m := Manager.collect (Manager.collect ∅ expired) oldPR).
  assert (∀ k d, m !! k = Some d → Database.Name d = k ∧ (d ∈ expired ∨ d ∈ oldPR))
    as Hkeys.
  { intros k d [Hm | [Hin Hname]]%collect_lookup; [|auto].
    apply collect_lookup in Hm as [Hm | [Hin Hname]]; [|auto].
    rewrite lookup_empty in Hm. discriminate. }
  assert (Database.Name <$> (map_to_list m).*2 = (map_to_list m).*1) as Hnames.
  { apply names_of_values. intros k d Hin%elem_of_map_to_list. now apply Hkeys. }
  rewrite Hnames. split; [apply NoDup_fst_map_to_list|]. split.
  - intros d [[k d'] [-> Hin%elem_of_map_to_list]]%list_elem_of_fmap.
    exact (proj2 (Hkeys k d' Hin)).
  - intros n. transitivity (is_Some (m !! n)).
    + rewrite list_elem_of_fmap. split.
      * intros [[k d] [-> Hin%elem_of_map_to_list]]. eauto.
      * intros [d Hd]. exists (n, d). split; [reflexivity|]. now apply elem_of_map_to_list.
    + unfold m. rewrite !collect_is_Some, lookup_empty, is_Some_alt. tauto.
Qed.







(** ** The engine client on its own *)

Lemma Exec_cases (st : db.Stmt) (w w' : World) (e : error) :
  PostgresClient.Exec st w = (e, w') →
  faults w' = drop 1 (faults w)
  ∧ match e with
    | None => db.run st (server w) = Ok (server w')
    | Some _ => server w' = server w
    end.
Proof.
  unfold PostgresClient.Exec, PostgresClient.answer, mbind, M_bind, mret, M_ret.
  rewrite driver_eq. destruct (next_fault w) as [msg|].
  - intros [= <- <-]. auto.
  - change (server (pop w)) with (server w).
    destruct (db.run st (server w)) as [s|msg]; intros [= <- <-]; auto.
Qed.

Lemma Exec_answered (st : db.Stmt) (w : World) :
  next_fault w = None →
  PostgresClient.Exec st w =
    match db.run st (server w) with
    | Ok s => (None, set_server s (pop w))
    | Err e => (Some e, pop w)
    end.
Proof.
  intros Hf. unfold PostgresClient.Exec, PostgresClient.answer, mbind, M_bind.
  rewrite driver_eq, Hf. reflexivity.
Qed.

Lemma owns_false_iff (s : PgServer) (u : string) :
  db.owns s u = false ↔ ∀ d o, owners s !! d = Some o → o ≠ u.
Proof.
  unfold db.owns. rewrite bool_decide_eq_false. split.
  - intros Hnone d o Hd ->. apply Hnone. exists d, u. auto.
  - intros Hall (d & o & Hd & Ho). cbn in Ho. exact (Hall d o Hd Ho).
Qed.

Lemma pg_DropDatabase_server (dbName userName : string) (w w' : World) :
  PostgresClient.DropDatabase dbName userName w = (None, w') →
  owners (server w') = delete dbName (owners (server w))
  ∧ roles (server w') = roles (server w) ∖ {[userName]}
  ∧ db.owns (server w') userName = false.
Proof.
  unfold PostgresClient.DropDatabase.
  match goal with |- logged _ ?b _ = _ → _ => destruct (b w) as [e1 w1] eqn:Hbody end.
  rewrite (logged_eq _ _ _ _ _ Hbody). intros [= -> <-].
  change (server (set_trace _ w1)) with (server w1).
  revert Hbody. unfold PostgresClient.connect, mbind, M_bind, mret, M_ret.
  rewrite driver_eq. destruct (next_fault w); [intros [=]|].
  destruct (PostgresClient.Exec (db.TerminateBackends _) _) as [e0 w2] eqn:Hterm.
  destruct (PostgresClient.Exec (db.DropDatabaseIfExists _) _) as [[msg|] w3] eqn:Hdb;
    [intros [=]|].
  destruct (PostgresClient.Exec (db.DropUserIfExists _) _) as [[msg|] w4] eqn:Huser;
    intros [= <-].
  apply Exec_cases in Hterm as [_ Hterm], Hdb as [_ Hdb], Huser as [_ Huser].
  assert (server w2 = server w) as Hs2.
  { destruct e0; [exact Hterm|]. cbn in Hterm. now injection Hterm as <-. }
  cbn in Hdb. injection Hdb as Hdb. cbn in Huser.
  destruct (db.owns (server w3) userName) eqn:Howns; [discriminate|].
  injection Huser as Huser. rewrite <- Huser, <- Hdb, Hs2. cbn. repeat split.
  rewrite <- Hdb in Howns. apply owns_false_iff. intros d o Hd.
  rewrite owns_false_iff in Howns. cbn in Howns. rewrite Hs2 in Howns. eauto.
Qed.

(** X1. A drop that reports success leaves the server with exactly the
    databases it had minus [dbName] and the roles it had minus
    [userName], whatever the script of outside failures: the database
    and the role are gone, the other databases and roles are there, and
    the metadata is untouched. *)
Theorem DropDatabase_success_state (dbName userName : string) (w w' : World) :
  PostgresClient.DropDatabase dbName userName w = (None, w') →
  owners (server w') = delete dbName (owners (server w))
  ∧ roles (server w') = roles (server w) ∖ {[userName]}
  ∧ owners (server w') !! dbName = None
  ∧ (userName ∉ roles (server w'))
  ∧ sqlite w' = sqlite w.
Proof.
  intros Hrun. pose proof Hrun as (Ho & Hr & _)%pg_DropDatabase_server.
  apply pg_DropDatabase_frame in Hrun as (Hs & _).
  rewrite Ho, Hr. repeat split; [apply lookup_delete_eq | | exact Hs].
  rewrite elem_of_difference, elem_of_singleton. tauto.
Qed.

Lemma DropDatabase_success_state_acme_dev :
  let w := Scenario.expired_pr [] in
  let run := PostgresClient.DropDatabase "acme_dev" "acme_dev_user" w in
  run.1 = None
  ∧ owners (server run.2) = delete "acme_dev" (owners (server w))
  ∧ roles (server run.2) = roles (server w) ∖ {["acme_dev_user"]}
  ∧ owners (server run.2) !! "acme_dev" = None
  ∧ ("acme_dev_user" ∉ roles (server run.2))
  ∧ sqlite run.2 = sqlite w.
Proof.
  intros w run. split; [vm_compute; reflexivity|].
  apply (DropDatabase_success_state "acme_dev" "acme_dev_user" w run.2).
  vm_compute; reflexivity.
Defined.

Lemma answers_pop (n : nat) (w : World) : answers (S n) w → answers n (pop w).
Proof. intros H. now apply answers_S in H. Qed.

Lemma answers_next (n : nat) (w : World) : answers (S n) w → next_fault w = None.
Proof. intros H. now apply answers_S in H. Qed.

(** What a drop does when nothing outside fails: it fails only when the
    role would still own a database once [dbName] is gone. *)
Lemma DropDatabase_answered (dbName userName : string) (w : World) :
  answers 4 w →
  let s' := {| roles := roles (server w); owners := delete dbName (owners (server w)) |} in
  (PostgresClient.DropDatabase dbName userName w).1
  = if db.owns s' userName
    then Some ("failed to drop user: " +:+ "ERROR: role " +:+ userName
               +:+ " cannot be dropped because some objects depend on it (SQLSTATE 2BP01)")
    else None.
Proof.
  intros Hans s'.
  pose proof (answers_next _ _ Hans) as Hf1. apply answers_pop in Hans.
  pose proof (answers_next _ _ Hans) as Hf2. apply answers_pop in Hans.
  pose proof (answers_next _ _ Hans) as Hf3. apply answers_pop in Hans.
  pose proof (answers_next _ _ Hans) as Hf4.
  unfold PostgresClient.DropDatabase, logged, PostgresClient.connect, mbind, M_bind,
    mret, M_ret, emit.
  rewrite driver_eq, Hf1, (Exec_answered _ _ Hf2). cbn [db.run].
  rewrite (Exec_answered _ (set_server _ _)) by exact Hf3. cbn [db.run].
  rewrite (Exec_answered _ (set_server _ _)) by exact Hf4. cbn [db.run server set_server].
  change (server (pop w)) with (server w). fold s'.
  destruct (db.owns s' userName); reflexivity.
Qed.

(** X2. Dropping is idempotent: after a drop that reported success, a
    second drop of the same database and role, with nothing outside
    failing, reports success too and leaves the server as it was. *)
Theorem DropDatabase_twice (dbName userName : string) (w w1 : World) :
  PostgresClient.DropDatabase dbName userName w = (None, w1) →
  answers 4 w1 →
  ∃ w2, PostgresClient.DropDatabase dbName userName w1 = (None, w2)
        ∧ owners (server w2) = owners (server w1)
        ∧ roles (server w2) = roles (server w1).
Proof.
  intros Hfirst Hans.
  apply pg_DropDatabase_server in Hfirst as (Howners & Hroles & Howns).
  destruct (PostgresClient.DropDatabase dbName userName w1) as [e w2] eqn:Hsecond.
  pose proof (DropDatabase_answered dbName userName w1 Hans) as Hres.
  rewrite Hsecond in Hres. cbn [fst] in Hres.
  assert (delete dbName (owners (server w1)) = owners (server w1)) as Hsame.
  { rewrite Howners. apply delete_delete_eq. }
  rewrite Hsame in Hres.
  assert (db.owns {| roles := roles (server w1); owners := owners (server w1) |} userName
          = false) as Hnone.
  { apply owns_false_iff. rewrite owns_false_iff in Howns. exact Howns. }
  rewrite Hnone in Hres. subst e. exists w2. split; [reflexivity|].
  apply pg_DropDatabase_server in Hsecond as (Ho2 & Hr2 & _).
  rewrite Ho2, Hsame, Hr2, Hroles. split; [reflexivity|].
  apply set_eq. intros x. rewrite !elem_of_difference. tauto.
Qed.

Lemma DropDatabase_twice_acme_dev :
  let w := Scenario.expired_pr [] in
  let w1 := (PostgresClient.DropDatabase "acme_dev" "acme_dev_user" w).2 in
  ∃ w2, PostgresClient.DropDatabase "acme_dev" "acme_dev_user" w1 = (None, w2)
        ∧ owners (server w2) = owners (server w1)
        ∧ roles (server w2) = roles (server w1).
Proof.
  intros w w1.
  apply (DropDatabase_twice "acme_dev" "acme_dev_user" w w1).
  - vm_compute; reflexivity.
  - vm_compute. constructor.
Defined.

Lemma Contains_app (a b sub : string) :
  strings.Contains b sub = true → strings.Contains (a +:+ b) sub = true.
Proof.
  intros Hb. induction a as [|c a IH]; [exact Hb|].
  change (String c a +:+ b) with (String c (a +:+ b)). cbn [strings.Contains].
  rewrite IH. apply orb_true_r.
Qed.

Lemma role_exists_message (u : string) :
  strings.Contains ("ERROR: role " +:+ u +:+ " already exists (SQLSTATE 42710)")
    "already exists" = true.
Proof. do 2 apply Contains_app. reflexivity. Qed.

Lemma run_CreateDatabaseOwner_ok (d u : string) (s s' : PgServer) :
  db.run (db.CreateDatabaseOwner d u) s = Ok s' →
  owners s !! d = None ∧ u ∈ roles s
  ∧ roles s' = roles s ∧ owners s' = <[d := u]> (owners s).
Proof.
  cbn. case_bool_decide as Hd; [discriminate|]. case_bool_decide as Hu; [|discriminate].
  intros [= <-]. cbn. split; [|auto]. now apply eq_None_not_Some.
Qed.

Lemma run_GrantAll_ok (d u : string) (s s' : PgServer) :
  db.run (db.GrantAll d u) s = Ok s' → s' = s.
Proof. cbn. destruct (_ && _); [now intros [= <-] | discriminate]. Qed.

Lemma afterUser_ok (d u : string) (w w' : World) :
  (err ← PostgresClient.Exec (db.CreateDatabaseOwner d u);
   match err with
   | Some e => mret (Some ("failed to create database: " +:+ e))
   | None =>
       err ← PostgresClient.Exec (db.GrantAll d u);
       match err with
       | Some e => mret (Some ("failed to grant privileges: " +:+ e))
       | None => mret None
       end
   end) w = (None, w') →
  owners (server w) !! d = None ∧ u ∈ roles (server w)
  ∧ roles (server w') = roles (server w)
  ∧ owners (server w') = <[d := u]> (owners (server w)).
Proof.
  unfold mbind, M_bind, mret, M_ret.
  destruct (PostgresClient.Exec (db.CreateDatabaseOwner d u) w) as [[msg|] w1] eqn:Hdb;
    [intros [=]|].
  destruct (PostgresClient.Exec (db.GrantAll d u) w1) as [[msg|] w2] eqn:Hgrant;
    intros [= <-].
  apply Exec_cases in Hdb as [_ Hdb], Hgrant as [_ Hgrant].
  apply run_GrantAll_ok in Hgrant. rewrite Hgrant.
  now apply run_CreateDatabaseOwner_ok.
Qed.

Lemma pg_CreateDatabase_server (dbName userName password : string) (w w' : World) :
  PostgresClient.CreateDatabase dbName userName password w = (None, w') →
  owners (server w) !! dbName = None
  ∧ owners (server w') = <[dbName := userName]> (owners (server w))
  ∧ roles (server w') = {[userName]} ∪ roles (server w).
Proof.
  unfold PostgresClient.CreateDatabase.
  match goal with |- logged _ ?b _ = _ → _ => destruct (b w) as [e1 w1] eqn:Hbody end.
  rewrite (logged_eq _ _ _ _ _ Hbody). intros [= -> <-].
  change (server (set_trace _ w1)) with (server w1).
  revert Hbody. unfold PostgresClient.connect. unfold mbind at 1, M_bind at 1.
  rewrite driver_eq. destruct (next_fault w); [intros [=]|].
  cbv zeta. unfold mbind at 1, M_bind at 1.
  destruct (PostgresClient.Exec (db.CreateUser _ _) _) as [e0 w2] eqn:Huser.
  apply Exec_cases in Huser as [_ Huser]. change (server (pop w)) with (server w) in Huser.
  assert (∀ w0, server w0 = server w2 →
            owners (server w0) !! dbName = None ∧ userName ∈ roles (server w0)
            ∧ roles (server w1) = roles (server w0)
            ∧ owners (server w1) = <[dbName := userName]> (owners (server w0)) →
            owners (server w) !! dbName = None
            ∧ owners (server w1) = <[dbName := userName]> (owners (server w))
            ∧ roles (server w1) = {[userName]} ∪ roles (server w)) as Hfinish.
  { intros w0 Hw0 (Hd & Hu & Hr & Ho). rewrite Hw0 in *. clear w0 Hw0.
    destruct e0 as [msg|].
    - rewrite Huser in *. split; [exact Hd|]. split; [exact Ho|].
      rewrite Hr. apply set_eq. intros x. rewrite elem_of_union, elem_of_singleton.
      split; [tauto | intros [-> | ?]; auto].
    - cbn in Huser. case_bool_decide; [discriminate|]. injection Huser as Huser.
      rewrite <- Huser in *. cbn in *. auto. }
  destruct e0 as [msg|].
  - destruct (negb (strings.Contains msg "already exists")); [intros [=]|].
    intros Hafter%afterUser_ok. now apply (Hfinish w2).
  - intros Hafter%afterUser_ok. now apply (Hfinish w2).
Qed.

(** X3. A live create that reports success found no database of that
    name, and leaves the server with that database owned by the role,
    the role among the roles, every other database and role as it was,
    and the metadata untouched. *)
Theorem CreateDatabase_success_state (dbName userName password : string) (w w' : World) :
  PostgresClient.CreateDatabase dbName userName password w = (None, w') →
  owners (server w) !! dbName = None
  ∧ owners (server w') = <[dbName := userName]> (owners (server w))
  ∧ roles (server w') = {[userName]} ∪ roles (server w)
  ∧ owners (server w') !! dbName = Some userName
  ∧ userName ∈ roles (server w')
  ∧ sqlite w' = sqlite w.
Proof.
  intros Hrun. pose proof Hrun as (Hfree & Ho & Hr)%pg_CreateDatabase_server.
  apply pg_CreateDatabase_frame in Hrun as (Hs & _).
  rewrite Ho, Hr. repeat split; [exact Hfree | apply lookup_insert_eq | | exact Hs].
  apply elem_of_union. left. now apply elem_of_singleton.
Qed.

Lemma CreateDatabase_success_state_fresh :
  let w := Scenario.fresh in
  let run := PostgresClient.CreateDatabase "acme_dev" "acme_dev_user" "secret" w in
  run.1 = None
  ∧ owners (server w) !! "acme_dev" = None
  ∧ owners (server run.2) = <["acme_dev" := "acme_dev_user"]> (owners (server w))
  ∧ roles (server run.2) = {["acme_dev_user"]} ∪ roles (server w)
  ∧ owners (server run.2) !! "acme_dev" = Some "acme_dev_user"
  ∧ "acme_dev_user" ∈ roles (server run.2)
  ∧ sqlite run.2 = sqlite w.
Proof.
  intros w run. split; [vm_compute; reflexivity|].
  apply (CreateDatabase_success_state "acme_dev" "acme_dev_user" "secret" w run.2).
  vm_compute; reflexivity.
Defined.

(** X4. With nothing outside failing, a live create succeeds exactly
    when no database of that name exists; a role of that name left by an
    earlier attempt does not stand in the way. *)
Theorem CreateDatabase_answered (dbName userName password : string) (w : World) :
  answers 4 w →
  (PostgresClient.CreateDatabase dbName userName password w).1 = None
  ↔ owners (server w) !! dbName = None.
Proof.
  intros Hans. split.
  - destruct (PostgresClient.CreateDatabase _ _ _ w) as [e w'] eqn:Hrun. cbn. intros ->.
    now apply pg_CreateDatabase_server in Hrun.
  - intros Hfree.
    pose proof (answers_next _ _ Hans) as Hf1. apply answers_pop in Hans.
    pose proof (answers_next _ _ Hans) as Hf2. apply answers_pop in Hans.
    pose proof (answers_next _ _ Hans) as Hf3. apply answers_pop in Hans.
    pose proof (answers_next _ _ Hans) as Hf4.
    unfold PostgresClient.CreateDatabase, logged, PostgresClient.connect, mbind, M_bind,
      mret, M_ret, emit.
    rewrite driver_eq, Hf1, (Exec_answered _ _ Hf2). cbn [db.run].
    change (server (pop w)) with (server w).
    assert (∀ w0 : World,
              next_fault w0 = None → next_fault (pop w0) = None →
              owners (server w0) !! dbName = None → userName ∈ roles (server w0) →
              ∃ w1, (err ← PostgresClient.Exec (db.CreateDatabaseOwner dbName userName);
                     match err with
                     | Some e => mret (Some ("failed to create database: " +:+ e))
                     | None =>
                         err ← PostgresClient.Exec (db.GrantAll dbName userName);
                         match err with
                         | Some e => mret (Some ("failed to grant privileges: " +:+ e))
                         | None => mret None
                         end
                     end) w0 = (None, w1)) as Hafter.
    { intros w0 Hg1 Hg2 Hd Hu. unfold mbind, M_bind, mret, M_ret.
      rewrite (Exec_answered _ _ Hg1). cbn [db.run].
      rewrite bool_decide_eq_false_2 by (rewrite Hd; apply is_Some_None).
      rewrite bool_decide_eq_true_2 by exact Hu.
      rewrite (Exec_answered _ (set_server _ _)) by exact Hg2.
      cbn [db.run server set_server owners roles].
      rewrite bool_decide_eq_true_2 by (rewrite lookup_insert_eq; eauto).
      rewrite bool_decide_eq_true_2 by exact Hu. cbn. eauto. }
    unfold mbind, M_bind, mret, M_ret in Hafter.
    case_bool_decide as Hrole.
    + rewrite role_exists_message. cbn [negb].
      destruct (Hafter (pop (pop w))) as [w1 Hw1]; auto. rewrite Hw1. reflexivity.
    + destruct (Hafter (set_server {| roles := {[userName]} ∪ roles (server w);
                                      owners := owners (server w) |} (pop (pop w))))
        as [w1 Hw1]; auto.
      * cbn. apply elem_of_union. left. now apply elem_of_singleton.
      * rewrite Hw1. reflexivity.
Qed.

Lemma CreateDatabase_answered_retry :
  let w := set_server {| roles := {["acme_dev_user"]}; owners := ∅ |} Scenario.fresh in
  (PostgresClient.CreateDatabase "acme_dev" "acme_dev_user" "secret" w).1 = None
  ↔ owners (server w) !! "acme_dev" = None.
Proof.
  intros w. apply (CreateDatabase_answered "acme_dev" "acme_dev_user" "secret" w).
  vm_compute. constructor.
Defined.

(** ** Create, read and delete, one after the other *)

Lemma Store_CreateDatabase_ok (projectID : Z) (name userName password env : string)
    (prNumber expiresAt : option Z) (w w' : World) (row : Database.t) :
  Store.CreateDatabase projectID name userName password env prNumber expiresAt w
    = (Ok row, w') →
  existsb (Store.database_named name) (databases (sqlite w)) = false
  ∧ existsb (λ p, (Project.ID p =? projectID)%Z) (projects (sqlite w)) = true
  ∧ seq_projects (sqlite w') = seq_projects (sqlite w)
  ∧ seq_databases (sqlite w') = (seq_databases (sqlite w) + 1)%Z
  ∧ faults w' = drop 1 (faults w).
Proof.
  unfold Store.CreateDatabase, mbind, M_bind, mret, M_ret, emit. rewrite driver_eq.
  destruct (next_fault w) as [msg|]; [intros [=]|].
  destruct (Store.insert_database _ _ _ _ _ _ _ _ _) as [[id s]|msg] eqn:Hins;
    intros [= <- <-]. cbn.
  unfold Store.insert_database in Hins. cbn in Hins.
  destruct (existsb _ (databases _)); [discriminate|].
  destruct (existsb _ (projects _)); [|discriminate].
  injection Hins as <- <-. cbn. auto.
Qed.

Lemma find_app_last {A} (f : A → bool) (l : list A) (x : A) :
  List.find f l = None → f x = true → List.find f (l ++ [x]) = Some x.
Proof.
  induction l as [|y l IH]; cbn; intros Hnone Hx; [now rewrite Hx|].
  destruct (f y); [discriminate | auto].
Qed.

Lemma filter_app_last_removed {A} (f : A → bool) (l : list A) (x : A) :
  existsb f l = false → f x = true → List.filter (λ y, negb (f y)) (l ++ [x]) = l.
Proof.
  induction l as [|y l IH]; cbn; intros Hnone Hx; [now rewrite Hx|].
  apply orb_false_elim in Hnone as [-> Hl]. cbn. now rewrite IH.
Qed.

(** The steps of a create that succeeded. *)
Lemma CreateDatabase_success_steps
    (cfg : Config.t) (rnd : db.RandRead) (projectName env : string)
    (prNumber : option Z) (w w' : World) (info : DatabaseInfo.t) :
  Manager.CreateDatabase cfg rnd projectName env prNumber w = (Ok info, w') →
  let dbName := project.DatabaseName projectName env prNumber in
  let userName := project.UserName dbName in
  ∃ p row,
    List.find (Store.project_named projectName) (projects (sqlite w)) = Some p
    ∧ List.find (Store.database_for (Project.ID p) env prNumber) (databases (sqlite w)) = None
    ∧ existsb (Store.database_named dbName) (databases (sqlite w)) = false
    ∧ projects (sqlite w') = projects (sqlite w)
    ∧ databases (sqlite w') = databases (sqlite w) ++ [row]
    ∧ Store.database_for (Project.ID p) env prNumber row = true
    ∧ Database.Name row = dbName ∧ Database.UserName row = userName
    ∧ Database.Password row = db.GeneratePassword rnd
    ∧ owners (server w) !! dbName = None
    ∧ owners (server w') = <[dbName := userName]> (owners (server w))
    ∧ roles (server w') = {[userName]} ∪ roles (server w)
    ∧ now w' = now w.
Proof.
  intros Hrun dbName userName. revert Hrun.
  unfold Manager.CreateDatabase.
  destruct (project.ValidateEnv env) as [msg|] eqn:Henv; [intros [=]|].
  destruct (String.eqb env "pr" && negb (bool_decide (is_Some prNumber))) eqn:Hgate;
    [intros [=]|].
  unfold mbind, M_bind, mret, M_ret, time_Now.
  rewrite GetProject_eq. destruct (next_fault w); [intros [=]|].
  destruct (List.find _ (projects _)) as [p|] eqn:Hp; [|intros [=]].
  rewrite GetDatabase_eq. cbn [sqlite set_trace].
  destruct (next_fault _); [intros [=]|].
  change (sqlite (pop w)) with (sqlite w).
  destruct (List.find _ (databases _)) eqn:Hd; [intros [=]|].
  cbn [now set_trace pop set_faults].
  fold dbName. fold userName.
  destruct (PostgresClient.CreateDatabase _ _ _ _) as [[msg|] w2] eqn:Hcreate;
    [intros [=]|].
  pose proof Hcreate as (Hs2 & Hn2 & _)%pg_CreateDatabase_frame.
  apply pg_CreateDatabase_server in Hcreate as (Hfree & Howners & Hroles).
  cbn in Hs2, Hn2, Hfree, Howners, Hroles.
  destruct (Store.CreateDatabase _ _ _ _ _ _ _ w2) as [[row|msg] w3] eqn:Hstore.
  - pose proof Hstore as (Hnew & _)%Store_CreateDatabase_ok.
    apply Store_CreateDatabase_frame in Hstore as (Hs3 & Hn3 & _ & Hp3 & Hrows & Hrow).
    intros [= <- <-]. exists p, row. rewrite Hs2 in *. rewrite Hs3, Hn3, Hn2.
    repeat split; try assumption; try (rewrite Hrow; reflexivity).
    rewrite Hrow. unfold Store.database_for. cbn.
    rewrite Z.eqb_refl, String.eqb_refl. destruct prNumber; [apply Z.eqb_refl | reflexivity].
  - destruct (PostgresClient.DropDatabase _ _ _). intros [=].
Qed.



(** X6. A second create for the same project, environment and PR
    number, made after one that succeeded and with the store answering
    the two lookups, fails with the already-exists error; it calls the
    server not at all and leaves the metadata and the server as they
    were. *)
Theorem CreateDatabase_twice
    (cfg : Config.t) (rnd rnd' : db.RandRead) (projectName env : string)
    (prNumber : option Z) (w w1 : World) (info : DatabaseInfo.t) :
  Manager.CreateDatabase cfg rnd projectName env prNumber w = (Ok info, w1) →
  answers 2 w1 →
  ∃ p w2,
    Manager.CreateDatabase cfg rnd' projectName env prNumber w1
      = (Err ("database already exists for " +:+ projectName +:+ "/" +:+ env), w2)
    ∧ sqlite w2 = sqlite w1 ∧ server w2 = server w1
    ∧ trace w2 = trace w1
        ++ [EvGetProject projectName; EvGetDatabase (Project.ID p) env prNumber].
Proof.
  intros Hrun Hans.
  pose proof (CreateDatabase_success _ _ _ _ _ _ _ _ Hrun) as (Henv & Hpr & _).
  pose proof (CreateDatabase_success_steps _ _ _ _ _ _ _ _ Hrun)
    as (p & row & Hp & Hd & _ & Hprojects & Hrows & Hmatch & _).
  apply answers_S in Hans as [Hf1 Hans]. apply answers_S in Hans as [Hf2 _].
  assert (String.eqb env "pr" && negb (bool_decide (is_Some prNumber)) = false) as Hgate.
  { destruct (String.eqb_spec env "pr") as [Heq|]; [|reflexivity].
    rewrite bool_decide_eq_true_2 by auto. reflexivity. }
  exists p. eexists. unfold Manager.CreateDatabase. rewrite Henv, Hgate.
  unfold mbind, M_bind, mret, M_ret.
  rewrite GetProject_eq, Hf1, Hprojects, Hp, GetDatabase_eq. cbn [sqlite set_trace].
  change (next_fault (set_trace _ (pop w1))) with (next_fault (pop w1)).
  rewrite Hf2. change (sqlite (pop w1)) with (sqlite w1).
  rewrite Hrows, (find_app_last _ _ row Hd Hmatch).
  split; [reflexivity|]. cbn. rewrite <- app_assoc. auto.
Qed.

Lemma CreateDatabase_twice_acme_dev :
  let created := Manager.CreateDatabase Scenario.cfg Scenario.rnd "acme" "dev" None
                   Scenario.fresh in
  ∃ p w2,
    Manager.CreateDatabase Scenario.cfg Scenario.rnd_down "acme" "dev" None created.2
      = (Err ("database already exists for " +:+ "acme" +:+ "/" +:+ "dev"), w2)
    ∧ sqlite w2 = sqlite created.2 ∧ server w2 = server created.2
    ∧ trace w2 = trace created.2
        ++ [EvGetProject "acme"; EvGetDatabase (Project.ID p) "dev" None].
Proof.
  intros created. destruct created as [r w1] eqn:Hrun.
  destruct r as [info|msg]; [|vm_compute in Hrun; discriminate Hrun].
  apply (CreateDatabase_twice Scenario.cfg Scenario.rnd Scenario.rnd_down "acme" "dev" None
           Scenario.fresh w1 info Hrun).
  injection Hrun as _ <-. vm_compute. constructor.
Defined.

(** X7. A create that succeeded has written both sides: before it no
    record and no live database had the name; after it the metadata has
    one more row, of that name and role, and on the server the database
    exists, owned by the role, which exists. *)
Theorem CreateDatabase_writes_both_sides
    (cfg : Config.t) (rnd : db.RandRead) (projectName env : string)
    (prNumber : option Z) (w w' : World) (info : DatabaseInfo.t) :
  Manager.CreateDatabase cfg rnd projectName env prNumber w = (Ok info, w') →
  let dbName := project.DatabaseName projectName env prNumber in
  let userName := project.UserName dbName in
  (∀ d, d ∈ databases (sqlite w) → Database.Name d ≠ dbName)
  ∧ owners (server w) !! dbName = None
  ∧ (∃ row, databases (sqlite w') = databases (sqlite w) ++ [row]
            ∧ Database.Name row = dbName ∧ Database.UserName row = userName)
  ∧ owners (server w') !! dbName = Some userName
  ∧ userName ∈ roles (server w').
Proof.
  intros Hrun dbName userName.
  apply CreateDatabase_success_steps in Hrun
    as (p & row & _ & _ & Hnew & _ & Hrows & _ & Hname & Huser & _ & Hfree & Howners
          & Hroles & _).
  fold dbName in Hnew, Hname, Hfree, Howners, Hroles, Huser.
  fold userName in Huser, Howners, Hroles.
  split; [|split; [exact Hfree|split; [eauto|split]]].
  - intros d Hin Heq.
    assert (existsb (Store.database_named dbName) (databases (sqlite w)) = true) as Hex.
    { apply existsb_exists. exists d. split; [now apply list_elem_of_In|].
      unfold Store.database_named. rewrite Heq. apply String.eqb_refl. }
    congruence.
  - rewrite Howners. apply lookup_insert_eq.
  - rewrite Hroles. apply elem_of_union. left. now apply elem_of_singleton.
Qed.

Lemma CreateDatabase_writes_both_sides_acme_pr :
  let w := Scenario.fresh in
  let run := Manager.CreateDatabase Scenario.cfg Scenario.rnd "acme" "pr" (Some 42%Z) w in
  (∀ d, d ∈ databases (sqlite w) → Database.Name d ≠ "acme_pr_42")
  ∧ owners (server w) !! "acme_pr_42" = None
  ∧ (∃ row, databases (sqlite run.2) = databases (sqlite w) ++ [row]
            ∧ Database.Name row = "acme_pr_42"
            ∧ Database.UserName row = "acme_pr_42_user")
  ∧ owners (server run.2) !! "acme_pr_42" = Some "acme_pr_42_user"
  ∧ "acme_pr_42_user" ∈ roles (server run.2).
Proof.
  intros w run. destruct run as [r w1] eqn:Hrun.
  destruct r as [info|msg]; [|vm_compute in Hrun; discriminate Hrun].
  exact (CreateDatabase_writes_both_sides Scenario.cfg Scenario.rnd "acme" "pr" (Some 42%Z)
           w w1 info Hrun).
Defined.

(** X8. A delete that returns no error has removed both sides: it found
    a record for the project, environment and PR number, and afterwards
    no record has its name, the live database is gone and so is the
    role. *)
Theorem DeleteDatabase_removes_both_sides
    (projectName env : string) (prNumber : option Z) (w w' : World) :
  Manager.DeleteDatabase projectName env prNumber w = (None, w') →
  ∃ p d,
    List.find (Store.project_named projectName) (projects (sqlite w)) = Some p
    ∧ List.find (Store.database_for (Project.ID p) env prNumber) (databases (sqlite w))
      = Some d
    ∧ (∀ d', d' ∈ databases (sqlite w') → Database.Name d' ≠ Database.Name d)
    ∧ owners (server w') !! Database.Name d = None
    ∧ Database.UserName d ∉ roles (server w').
Proof.
  unfold Manager.DeleteDatabase.
  destruct (project.ValidateEnv env); [intros [=]|].
  unfold mbind, M_bind, mret, M_ret.
  rewrite GetProject_eq. destruct (next_fault w); [intros [=]|].
  destruct (List.find _ (projects _)) as [p|] eqn:Hp; [|intros [=]].
  rewrite GetDatabase_eq. cbn [sqlite set_trace].
  destruct (next_fault _); [intros [=]|].
  change (sqlite (pop w)) with (sqlite w).
  destruct (List.find _ (databases _)) as [d|] eqn:Hd; [|intros [=]].
  destruct (PostgresClient.DropDatabase _ _ _) as [[msg|] w3] eqn:Hdrop; [intros [=]|].
  apply pg_DropDatabase_server in Hdrop as (Howners & Hroles & _).
  destruct (Store.DeleteDatabase _ w3) as [[msg|] w4] eqn:Hdel; intros [= <-].
  apply Store_DeleteDatabase_frame in Hdel as (Hs4 & _ & _ & _ & Hrows). cbn in Hrows.
  exists p, d. split; [reflexivity|]. split; [exact Hd|]. split; [|split].
  - intros d' Hin. rewrite Hrows in Hin.
    apply list_elem_of_In, List.filter_In in Hin as [_ Hne].
    unfold Store.database_named in Hne.
    intros Heq. rewrite Heq, String.eqb_refl in Hne. discriminate.
  - rewrite Hs4, Howners. apply lookup_delete_eq.
  - rewrite Hs4, Hroles, elem_of_difference, elem_of_singleton. tauto.
Qed.

Lemma DeleteDatabase_removes_both_sides_acme_dev :
  let w := Scenario.expired_pr [] in
  let run := Manager.DeleteDatabase "acme" "dev" None w in
  ∃ p d,
    List.find (Store.project_named "acme") (projects (sqlite w)) = Some p
    ∧ List.find (Store.database_for (Project.ID p) "dev" None) (databases (sqlite w))
      = Some d
    ∧ (∀ d', d' ∈ databases (sqlite run.2) → Database.Name d' ≠ Database.Name d)
    ∧ owners (server run.2) !! Database.Name d = None
    ∧ Database.UserName d ∉ roles (server run.2).
Proof.
  intros w run.
  apply (DeleteDatabase_removes_both_sides "acme" "dev" None w run.2).
  vm_compute; reflexivity.
Defined.

Lemma quiet_answers (n : nat) (w : World) : faults w = [] → answers n w.
Proof. unfold answers. intros ->. rewrite take_nil. constructor. Qed.

Lemma quiet_next (w : World) : faults w = [] → next_fault w = None.
Proof. unfold next_fault. now intros ->. Qed.

Lemma Exec_quiet (st : db.Stmt) (w w' : World) (e : error) :
  PostgresClient.Exec st w = (e, w') → faults w = [] → faults w' = [].
Proof. intros [Hf _]%Exec_cases Hq. now rewrite Hf, Hq. Qed.

Lemma pg_DropDatabase_quiet (dbName userName : string) (w w' : World) (e : error) :
  PostgresClient.DropDatabase dbName userName w = (e, w') → faults w = [] → faults w' = [].
Proof.
  unfold PostgresClient.DropDatabase.
  match goal with |- logged _ ?b _ = _ → _ => destruct (b w) as [e1 w1] eqn:Hbody end.
  rewrite (logged_eq _ _ _ _ _ Hbody). intros [= <- <-] Hq. cbn.
  revert Hbody. unfold PostgresClient.connect, mbind, M_bind, mret, M_ret.
  rewrite driver_eq.
  assert (faults (pop w) = []) as Hq1 by (unfold pop; cbn; now rewrite Hq).
  repeat match goal with
    | |- context [match ?x with _ => _ end] => destruct x eqn:?
    | |- (let '(_, _) := ?x in _) = _ → _ => destruct x eqn:?
    end; intros [= <- <-];
    repeat match goal with
      | H : PostgresClient.Exec _ _ = _ |- _ => apply Exec_quiet in H; [|assumption]
      end; assumption.
Qed.

Lemma Store_DeleteDatabase_answered (name : string) (w : World) :
  next_fault w = None →
  existsb (Store.database_named name) (databases (sqlite w)) = true →
  (Store.DeleteDatabase name w).1 = None.
Proof.
  intros Hf Hex. unfold Store.DeleteDatabase, logged, mbind, M_bind, mret, M_ret, emit.
  rewrite driver_eq, Hf. unfold Store.delete_database. change (sqlite (pop w)) with (sqlite w).
  destruct (Z.eqb_spec (Z.of_nat (length (List.filter (Store.database_named name)
                                            (databases (sqlite w))))) 0) as [Hzero|];
    [|reflexivity].
  exfalso. apply existsb_exists in Hex as (d & Hin & Hd).
  assert (In d (List.filter (Store.database_named name) (databases (sqlite w)))) as Hd'
    by (apply List.filter_In; auto).
  destruct (List.filter _ _); [destruct Hd' | cbn in Hzero; lia].
Qed.

(** X9. Create, then delete: after a create that succeeded, a delete
    for the same project, environment and PR number, with nothing
    outside failing and the role owning no database of its own before
    the create, returns no error and puts the rows of the metadata and
    the databases of the server back to what they were before the
    create; the role is gone. *)
Theorem DeleteDatabase_after_CreateDatabase
    (cfg : Config.t) (rnd : db.RandRead) (projectName env : string)
    (prNumber : option Z) (w w1 : World) (info : DatabaseInfo.t) :
  Manager.CreateDatabase cfg rnd projectName env prNumber w = (Ok info, w1) →
  faults w1 = [] →
  db.owns (server w) (DatabaseInfo.UserName info) = false →
  ∃ w2,
    Manager.DeleteDatabase projectName env prNumber w1 = (None, w2)
    ∧ projects (sqlite w2) = projects (sqlite w)
    ∧ databases (sqlite w2) = databases (sqlite w)
    ∧ owners (server w2) = owners (server w)
    ∧ roles (server w2) = roles (server w) ∖ {[DatabaseInfo.UserName info]}.
Proof.
  intros Hrun Hquiet Howns.
  pose proof (CreateDatabase_success _ _ _ _ _ _ _ _ Hrun) as (Henv & _ & Hinfo & _).
  pose proof (CreateDatabase_success_steps _ _ _ _ _ _ _ _ Hrun)
    as (p & row & Hp & Hd & Hnew & Hprojects & Hrows & Hmatch & Hname & Huser & _ & Hfree
          & Howners & Hroles & _).
  assert (DatabaseInfo.UserName info
          = project.UserName (project.DatabaseName projectName env prNumber)) as Hu
    by now rewrite Hinfo.
  rewrite Hu in *. clear Hu Hinfo.
  set (dbName := project.DatabaseName projectName env prNumber) in *.
  set (userName := project.UserName dbName) in *.
  unfold Manager.DeleteDatabase. rewrite Henv. unfold mbind, M_bind, mret, M_ret.
  rewrite GetProject_eq, (quiet_next _ Hquiet), Hprojects, Hp, GetDatabase_eq.
  cbn [sqlite set_trace].
  assert (faults (pop w1) = []) as Hq1 by (unfold pop; cbn; now rewrite Hquiet).
  change (next_fault (set_trace _ (pop w1))) with (next_fault (pop w1)).
  rewrite (quiet_next _ Hq1). change (sqlite (pop w1)) with (sqlite w1).
  rewrite Hrows, (find_app_last _ _ row Hd Hmatch), Hname, Huser.
  match goal with |- context [PostgresClient.DropDatabase _ _ ?w0] => set (wl := w0) end.
  assert (faults wl = []) as Hql by (subst wl; unfold pop; cbn; now rewrite Hquiet).
  assert (server wl = server w1) as Hsl by reflexivity.
  assert (sqlite wl = sqlite w1) as Hdl by reflexivity.
  destruct (PostgresClient.DropDatabase dbName userName wl) as [e w3] eqn:Hdrop.
  pose proof (DropDatabase_answered dbName userName wl (quiet_answers 4 _ Hql)) as Hres.
  rewrite Hdrop in Hres. cbn [fst] in Hres.
  assert (delete dbName (owners (server wl)) = owners (server w)) as Hback.
  { rewrite Hsl, Howners. now apply delete_insert_id. }
  rewrite Hback in Hres.
  assert (db.owns {| roles := roles (server wl); owners := owners (server w) |} userName
          = false) as Hnone.
  { apply owns_false_iff. rewrite owns_false_iff in Howns. exact Howns. }
  rewrite Hnone in Hres. subst e.
  pose proof (pg_DropDatabase_quiet _ _ _ _ _ Hdrop Hql) as Hq3.
  pose proof Hdrop as (Hs3 & _)%pg_DropDatabase_frame.
  apply pg_DropDatabase_server in Hdrop as (Ho3 & Hr3 & _).
  assert (Store.database_named dbName row = true) as Hrowname.
  { unfold Store.database_named. rewrite Hname. apply String.eqb_refl. }
  assert (existsb (Store.database_named dbName) (databases (sqlite w3)) = true) as Hthere.
  { rewrite Hs3, Hdl, Hrows, existsb_app. cbn. rewrite Hrowname. apply orb_true_r. }
  destruct (Store.DeleteDatabase dbName w3) as [e w4] eqn:Hdel.
  pose proof (Store_DeleteDatabase_answered dbName w3 (quiet_next _ Hq3) Hthere) as Hres.
  rewrite Hdel in Hres. cbn [fst] in Hres. subst e.
  apply Store_DeleteDatabase_frame in Hdel as (Hs4 & _ & _ & Hp4 & Hrows4). cbn in Hrows4.
  exists w4. split; [reflexivity|]. split; [|split; [|split]].
  - now rewrite Hp4, Hs3, Hdl.
  - rewrite Hrows4, Hs3, Hdl, Hrows. now apply filter_app_last_removed.
  - now rewrite Hs4, Ho3.
  - rewrite Hs4, Hr3, Hsl, Hroles. apply set_eq. intros x.
    rewrite !elem_of_difference, elem_of_union, elem_of_singleton. tauto.
Qed.

Lemma DeleteDatabase_after_CreateDatabase_acme_dev :
  let w := Scenario.fresh in
  let created := Manager.CreateDatabase Scenario.cfg Scenario.rnd "acme" "dev" None w in
  ∃ w2,
    Manager.DeleteDatabase "acme" "dev" None created.2 = (None, w2)
    ∧ projects (sqlite w2) = projects (sqlite w)
    ∧ databases (sqlite w2) = databases (sqlite w)
    ∧ owners (server w2) = owners (server w)
    ∧ roles (server w2) = roles (server w) ∖ {["acme_dev_user"]}.
Proof.
  intros w created. destruct created as [r w1] eqn:Hrun.
  destruct r as [info|msg]; [|vm_compute in Hrun; discriminate Hrun].
  assert (DatabaseInfo.UserName info = "acme_dev_user") as Huser.
  { pose proof (CreateDatabase_success _ _ _ _ _ _ _ _ Hrun) as (_ & _ & -> & _).
    reflexivity. }
  rewrite <- Huser.
  apply (DeleteDatabase_after_CreateDatabase Scenario.cfg Scenario.rnd "acme" "dev" None
           w w1 info Hrun).
  - injection Hrun as _ <-. vm_compute; reflexivity.
  - rewrite Huser. vm_compute; reflexivity.
Defined.

(** ** What every call keeps of the metadata *)

Lemma Evolves_ret {A} (P : Database.t → Prop) (a : A) : Evolves P (mret a).
Proof. intros w. apply rtc_refl. Qed.

Lemma Evolves_bind {A B} (P : Database.t → Prop) (m : M A) (k : A → M B) :
  Evolves P m → (∀ a, Evolves P (k a)) → Evolves P (m ≫= k).
Proof.
  intros Hm Hk w. unfold mbind, M_bind. specialize (Hm w).
  destruct (m w) as [a w1]. etrans; [exact Hm|]. apply Hk.
Qed.

Lemma Evolves_same {A} (P : Database.t → Prop) (m : M A) :
  (∀ w, sqlite (m w).2 = sqlite w) → Evolves P m.
Proof. intros Hsame w. rewrite Hsame. apply rtc_refl. Qed.

Lemma Evolves_driver (P : Database.t → Prop) : Evolves P driver.
Proof. apply Evolves_same. intros w. now rewrite driver_eq. Qed.

Lemma Evolves_emit (P : Database.t → Prop) (e : Event) : Evolves P (emit e).
Proof. now apply Evolves_same. Qed.

Lemma Evolves_world (P : Database.t → Prop) : Evolves P world.
Proof. now apply Evolves_same. Qed.

Lemma Evolves_time_Now (P : Database.t → Prop) : Evolves P time_Now.
Proof. now apply Evolves_same. Qed.

Lemma Evolves_pg_CreateDatabase (P : Database.t → Prop) (d u p : string) :
  Evolves P (PostgresClient.CreateDatabase d u p).
Proof.
  apply Evolves_same. intros w.
  destruct (PostgresClient.CreateDatabase d u p w) eqn:Hrun.
  now apply pg_CreateDatabase_frame in Hrun.
Qed.

Lemma Evolves_pg_DropDatabase (P : Database.t → Prop) (d u : string) :
  Evolves P (PostgresClient.DropDatabase d u).
Proof.
  apply Evolves_same. intros w.
  destruct (PostgresClient.DropDatabase d u w) eqn:Hrun.
  now apply pg_DropDatabase_frame in Hrun.
Qed.


Lemma Evolves_Store_DeleteDatabase (P : Database.t → Prop) (name : string) :
  Evolves P (Store.DeleteDatabase name).
Proof.
  intros w. unfold Store.DeleteDatabase, logged, mbind, M_bind, mret, M_ret, emit.
  rewrite driver_eq. destruct (next_fault w); [apply rtc_refl|].
  unfold Store.delete_database. cbn.
  destruct (_ =? 0)%Z; cbn; apply rtc_once, (step_delete_database P (sqlite w) name).
Qed.

Lemma Evolves_Store_CreateProject (P : Database.t → Prop) (name : string) :
  Evolves P (Store.CreateProject name).
Proof.
  intros w. unfold Store.CreateProject, mbind, M_bind, mret, M_ret.
  rewrite driver_eq. destruct (next_fault w); [apply rtc_refl|].
  destruct (Store.insert_project _ _ _) as [[row s]|msg] eqn:Hins; [|apply rtc_refl].
  cbn. apply rtc_once. eapply step_insert_project. exact Hins.
Qed.

Create HintDb evolves.
#[local] Hint Resolve Evolves_driver Evolves_emit Evolves_world Evolves_time_Now
  Evolves_pg_CreateDatabase Evolves_pg_DropDatabase Evolves_Store_DeleteDatabase
  Evolves_Store_CreateProject : evolves.

Ltac evolves :=
  repeat lazymatch goal with
    | |- Evolves _ (mret _) => apply Evolves_ret
    | |- Evolves _ (mbind _ _) => apply Evolves_bind; [|intros ?]
    | |- Evolves _ (match ?x with _ => _ end) => destruct x eqn:?
    | |- Evolves _ _ => solve [eauto with evolves]
    end.

Lemma Evolves_GetProject (P : Database.t → Prop) (name : string) :
  Evolves P (Store.GetProject name).
Proof. unfold Store.GetProject. evolves. Qed.

Lemma Evolves_GetDatabase (P : Database.t → Prop) (projectID : Z) (env : string)
    (prNumber : option Z) :
  Evolves P (Store.GetDatabase projectID env prNumber).
Proof. unfold Store.GetDatabase. evolves. Qed.

Lemma Evolves_GetExpiredDatabases (P : Database.t → Prop) :
  Evolves P Store.GetExpiredDatabases.
Proof. unfold Store.GetExpiredDatabases. evolves. Qed.

Lemma Evolves_GetDatabasesOlderThan (P : Database.t → Prop) (env : string) (d : Z) :
  Evolves P (Store.GetDatabasesOlderThan env d).
Proof. unfold Store.GetDatabasesOlderThan. evolves. Qed.

Lemma Evolves_ListProjects (P : Database.t → Prop) : Evolves P Store.ListProjects.
Proof. unfold Store.ListProjects. evolves. Qed.

Lemma Evolves_ListDatabases (P : Database.t → Prop) (projectID : Z) :
  Evolves P (Store.ListDatabases projectID).
Proof. unfold Store.ListDatabases. evolves. Qed.

Lemma Evolves_ListAllDatabases (P : Database.t → Prop) : Evolves P Store.ListAllDatabases.
Proof. unfold Store.ListAllDatabases. evolves. Qed.

#[local] Hint Resolve Evolves_GetProject Evolves_GetDatabase Evolves_GetExpiredDatabases
  Evolves_GetDatabasesOlderThan Evolves_ListProjects Evolves_ListDatabases
  Evolves_ListAllDatabases : evolves.

Lemma Evolves_Store_DeleteProject (P : Database.t → Prop) (name : string) :
  Evolves P (Store.DeleteProject name).
Proof.
  unfold Store.DeleteProject. evolves.
  intros w. cbn. apply rtc_once, step_delete_project.
Qed.

Lemma Evolves_deleteEach (P : Database.t → Prop) (records : list Database.t) :
  ∀ deleted, Evolves P (Manager.deleteEach records deleted).
Proof.
  induction records as [|d rest IH]; intros deleted; cbn [Manager.deleteEach]; evolves;
    apply IH.
Qed.

Lemma Evolves_dropEach (P : Database.t → Prop) (records : list Database.t) :
  Evolves P (Manager.dropEach records).
Proof. induction records as [|d rest IH]; cbn [Manager.dropEach]; evolves. Qed.

Lemma Evolves_describeEach (P : Database.t → Prop) (cfg : Config.t)
    (records : list Database.t) :
  ∀ cache result, Evolves P (Manager.describeEach cfg records cache result).
Proof.
  induction records as [|d rest IH]; intros cache result; cbn [Manager.describeEach];
    evolves.
Qed.

#[local] Hint Resolve Evolves_Store_DeleteProject Evolves_deleteEach Evolves_dropEach
  Evolves_describeEach : evolves.




Lemma elem_of_filter_bool {A} (f : A → bool) (l : list A) (x : A) :
  x ∈ List.filter f l ↔ x ∈ l ∧ f x = true.
Proof. rewrite !list_elem_of_In. apply List.filter_In. Qed.











(** ** Projects *)

Lemma Store_CreateProject_frame (name : string) (w w' : World) (r : Result Project.t) :
  Store.CreateProject name w = (r, w') →
  server w' = server w ∧ now w' = now w ∧ trace w' = trace w
  ∧ faults w' = drop 1 (faults w)
  ∧ match r with
    | Err _ => sqlite w' = sqlite w
    | Ok row =>
        existsb (Store.project_named name) (projects (sqlite w)) = false
        ∧ projects (sqlite w') = projects (sqlite w) ++ [row]
        ∧ databases (sqlite w') = databases (sqlite w)
        ∧ row = {| Project.ID := seq_projects (sqlite w) + 1; Project.Name := name;
                   Project.CreatedAt := now w |}
    end.
Proof.
  unfold Store.CreateProject, mbind, M_bind, mret, M_ret. rewrite driver_eq.
  destruct (next_fault w); [intros [= <- <-]; cbn; auto|].
  destruct (Store.insert_project _ _ _) as [[row s]|msg] eqn:Hins;
    intros [= <- <-]; cbn; [|auto].
  unfold Store.insert_project in Hins. cbn in Hins.
  destruct (existsb _ _); [discriminate|]. injection Hins as <- <-. cbn.
  repeat split; reflexivity.
Qed.

(** X11. A project that was created is there: after [CreateProject]
    returned no error, the name is a valid one, the store finds a
    project of that name (when it answers), and creating the project
    again fails with the already-exists error and leaves the metadata
    as it is. *)
Theorem CreateProject_then_again (name : string) (w w1 : World) :
  Manager.CreateProject name w = (None, w1) →
  answers 1 w1 →
  project.ValidateName name = None
  ∧ (∃ p, (Store.GetProject name w1).1 = Ok (Some p) ∧ Project.Name p = name)
  ∧ ∃ w2, Manager.CreateProject name w1
          = (Some ("project '" +:+ name +:+ "' already exists"), w2)
          ∧ sqlite w2 = sqlite w1.
Proof.
  unfold Manager.CreateProject at 1.
  destruct (project.ValidateName name) eqn:Hvalid; [intros [=]|].
  unfold mbind, M_bind, mret, M_ret.
  rewrite GetProject_eq. destruct (next_fault w); [intros [=]|].
  destruct (List.find _ (projects _)) eqn:Hnone; [intros [=]|].
  destruct (Store.CreateProject name _) as [[row|msg] w2] eqn:Hcreate; intros [= <-].
  apply Store_CreateProject_frame in Hcreate as (_ & _ & _ & _ & _ & Hrows & _ & Hrow).
  cbn in Hrows. intros [Hf _]%answers_S.
  assert (List.find (Store.project_named name) (projects (sqlite w2)) = Some row) as Hfound.
  { rewrite Hrows. apply find_app_last; [exact Hnone|].
    rewrite Hrow. unfold Store.project_named. cbn. apply String.eqb_refl. }
  split; [reflexivity|]. split.
  - exists row. rewrite GetProject_eq, Hf, Hfound. split; [reflexivity|]. now rewrite Hrow.
  - unfold Manager.CreateProject. rewrite Hvalid. unfold mbind, M_bind, mret, M_ret.
    rewrite GetProject_eq, Hf, Hfound. eauto.
Qed.

Lemma CreateProject_then_again_shop :
  let w1 := (Manager.CreateProject "shop" Scenario.fresh).2 in
  project.ValidateName "shop" = None
  ∧ (∃ p, (Store.GetProject "shop" w1).1 = Ok (Some p) ∧ Project.Name p = "shop")
  ∧ ∃ w2, Manager.CreateProject "shop" w1
          = (Some ("project '" +:+ "shop" +:+ "' already exists"), w2)
          ∧ sqlite w2 = sqlite w1.
Proof.
  intros w1. apply (CreateProject_then_again "shop" Scenario.fresh w1).
  - vm_compute; reflexivity.
  - vm_compute. constructor.
Defined.

Lemma ListDatabases_eq (projectID : Z) (w : World) :
  Store.ListDatabases projectID w =
    (match next_fault w with
     | Some e => Err ("failed to list databases: " +:+ e)
     | None => Ok (Store.order_by_name Database.Name
                     (List.filter (λ d, (Database.ProjectID d =? projectID)%Z)
                        (databases (sqlite w))))
     end, pop w).
Proof.
  unfold Store.ListDatabases, mbind, M_bind, mret, M_ret, world.
  rewrite driver_eq. destruct (next_fault w); reflexivity.
Qed.




(** X13. In [ListDatabases] for a named project, a failure of the store
    to list the databases is lost: the call returns the empty list and
    no error. With the empty project filter the same failure is
    returned as an error. *)
Theorem ListDatabases_loses_list_error
    (cfg : Config.t) (projectName msg : string) (w : World) (p : Project.t) :
  projectName ≠ EmptyString →
  next_fault w = None →
  List.find (Store.project_named projectName) (projects (sqlite w)) = Some p →
  next_fault (pop w) = Some msg →
  (Manager.ListDatabases cfg projectName w).1 = Ok []
  ∧ (Manager.ListDatabases cfg EmptyString (pop w)).1
    = Err ("failed to list databases: failed to list all databases: " +:+ msg).
Proof.
  intros Hname Hf1 Hp Hf2. split.
  - unfold Manager.ListDatabases. destruct (String.eqb_spec projectName EmptyString); [done|].
    unfold mbind, M_bind, mret, M_ret.
    rewrite GetProject_eq, Hf1, Hp, ListDatabases_eq.
    change (next_fault (set_trace _ (pop w))) with (next_fault (pop w)).
    rewrite Hf2. reflexivity.
  - unfold Manager.ListDatabases. cbn [String.eqb].
    unfold Store.ListAllDatabases, mbind, M_bind, mret, M_ret, world.
    rewrite driver_eq, Hf2. reflexivity.
Qed.

Lemma ListDatabases_loses_list_error_acme :
  let w := Scenario.expired_pr [None; Some "disk I/O error"] in
  (Manager.ListDatabases Scenario.cfg "acme" w).1 = Ok []
  ∧ (Manager.ListDatabases Scenario.cfg EmptyString (pop w)).1
    = Err ("failed to list databases: failed to list all databases: "
           +:+ "disk I/O error").
Proof.
  intros w.
  apply (ListDatabases_loses_list_error Scenario.cfg "acme" "disk I/O error" w Scenario.acme).
  - discriminate.
  - reflexivity.
  - reflexivity.
  - reflexivity.
Defined.

(** ** Reads *)

Lemma ReadOnly_ret {A} (a : A) : ReadOnly (mret a).
Proof. intros w. repeat split. exists []. now rewrite app_nil_r. Qed.

Lemma ReadOnly_bind {A B} (m : M A) (k : A → M B) :
  ReadOnly m → (∀ a, ReadOnly (k a)) → ReadOnly (m ≫= k).
Proof.
  intros Hm Hk w. unfold mbind, M_bind. specialize (Hm w).
  destruct (m w) as [a w1]. cbn in Hm. destruct Hm as (Hs1 & Hp1 & evs1 & Ht1 & Hl1).
  destruct (Hk a w1) as (Hs2 & Hp2 & evs2 & Ht2 & Hl2).
  split; [congruence|]. split; [congruence|].
  exists (evs1 ++ evs2). rewrite Ht2, Ht1, app_assoc. split; [reflexivity|].
  now apply Forall_app.
Qed.

Lemma ReadOnly_driver : ReadOnly driver.
Proof.
  intros w. rewrite driver_eq. repeat split. exists []. cbn. now rewrite app_nil_r.
Qed.

Lemma ReadOnly_world : ReadOnly world.
Proof. intros w. repeat split. exists []. cbn. now rewrite app_nil_r. Qed.

Lemma ReadOnly_emit (e : Event) : is_lookup e → ReadOnly (emit e).
Proof. intros He w. repeat split. exists [e]. split; [reflexivity|]. now constructor. Qed.

Create HintDb readonly.
#[local] Hint Resolve ReadOnly_driver ReadOnly_world : readonly.
#[local] Hint Extern 1 (ReadOnly (emit _)) => apply ReadOnly_emit; exact I : readonly.

Ltac readonly :=
  repeat lazymatch goal with
    | |- ReadOnly (mret _) => apply ReadOnly_ret
    | |- ReadOnly (mbind _ _) => apply ReadOnly_bind; [|intros ?]
    | |- ReadOnly (match ?x with _ => _ end) => destruct x eqn:?
    | |- ReadOnly _ => solve [eauto with readonly]
    end.

Lemma ReadOnly_GetProject (name : string) : ReadOnly (Store.GetProject name).
Proof. unfold Store.GetProject. readonly. Qed.

Lemma ReadOnly_GetDatabase (projectID : Z) (env : string) (prNumber : option Z) :
  ReadOnly (Store.GetDatabase projectID env prNumber).
Proof. unfold Store.GetDatabase. readonly. Qed.

Lemma ReadOnly_ListProjects : ReadOnly Store.ListProjects.
Proof. unfold Store.ListProjects. readonly. Qed.

Lemma ReadOnly_ListDatabases (projectID : Z) : ReadOnly (Store.ListDatabases projectID).
Proof. unfold Store.ListDatabases. readonly. Qed.

Lemma ReadOnly_ListAllDatabases : ReadOnly Store.ListAllDatabases.
Proof. unfold Store.ListAllDatabases. readonly. Qed.

#[local] Hint Resolve ReadOnly_GetProject ReadOnly_GetDatabase ReadOnly_ListProjects
  ReadOnly_ListDatabases ReadOnly_ListAllDatabases : readonly.

Lemma ReadOnly_describeEach (cfg : Config.t) (records : list Database.t) :
  ∀ cache result, ReadOnly (Manager.describeEach cfg records cache result).
Proof.
  induction records as [|d rest IH]; intros cache result; cbn [Manager.describeEach];
    readonly.
Qed.

#[local] Hint Resolve ReadOnly_describeEach : readonly.

(** X14. [GetDatabase] and [ListDatabases] only read the metadata:
    whatever the world and the outside failures, they leave the SQLite
    file and the server as they are, and they make no call on the
    engine client; the only calls recorded are lookups of the store. *)
Theorem reads_are_read_only
    (cfg : Config.t) (projectName env : string) (prNumber : option Z) :
  ReadOnly (Manager.GetDatabase cfg projectName env prNumber)
  ∧ ReadOnly (Manager.ListDatabases cfg projectName).
Proof.
  split.
  - unfold Manager.GetDatabase. readonly.
  - unfold Manager.ListDatabases. readonly.
Qed.

(** ** More on cleanup *)



Lemma Cleanup_rows (olderThan : Z) (w : World) :
  ∃ cands os,
    (∀ d, d ∈ cands → d ∈ databases (sqlite w) ∧ qualifies w olderThan d)
    ∧ projects (sqlite (Manager.Cleanup olderThan w).2) = projects (sqlite w)
    ∧ databases (sqlite (Manager.Cleanup olderThan w).2)
      = List.filter (keeps (removed_names cands os)) (databases (sqlite w))
    ∧ ∀ deleted, (Manager.Cleanup olderThan w).1 = Ok deleted →
                 deleted = removed_names cands os.
Proof.
  unfold Manager.Cleanup, mbind, M_bind, mret, M_ret.
  rewrite GetExpiredDatabases_eq.
  destruct (next_fault w).
  { exists [], []. cbn. rewrite filter_keeps_nil.
    split; [intros d []%elem_of_nil|]. repeat split. intros ? [=]. }
  rewrite GetDatabasesOlderThan_eq. cbn [now sqlite set_trace].
  change (sqlite (pop w)) with (sqlite w). change (now (pop w)) with (now w).
  destruct (next_fault _).
  { exists [], []. cbn. rewrite filter_keeps_nil.
    split; [intros d []%elem_of_nil|]. repeat split. intros ? [=]. }
  set (expired := Store.order_by _ (List.filter (Store.expired _) _)).
  set (oldPR := Store.order_by _ (List.filter (Store.older_than _ _) _)).
  destruct (candidates_spec expired oldPR) as (_ & Hfrom & _).
  destruct (Manager.deleteEach _ _ _) as [deleted w'] eqn:Hloop.
  apply deleteEach_run in Hloop as (os & _ & Hout & _ & _ & Hp & Hrows).
  exists (Manager.candidates expired oldPR), os. cbn.
  split; [|split; [exact Hp|split; [exact Hrows|]]].
  - intros d [Hd | Hd]%Hfrom; apply elem_of_selected in Hd as [Hin Hd];
      (split; [exact Hin|]); apply qualifies_spec; auto.
  - intros ? [= <-]. exact Hout.
Qed.



Lemma pg_DropDatabase_shrinks (dbName userName : string) (w w' : World) (e : error) :
  PostgresClient.DropDatabase dbName userName w = (e, w') →
  owners (server w') = owners (server w)
  ∨ owners (server w') = delete dbName (owners (server w)).
Proof.
  unfold PostgresClient.DropDatabase.
  match goal with |- logged _ ?b _ = _ → _ => destruct (b w) as [e1 w1] eqn:Hbody end.
  rewrite (logged_eq _ _ _ _ _ Hbody). intros [= <- <-].
  change (server (set_trace _ w1)) with (server w1).
  revert Hbody. unfold PostgresClient.connect, mbind, M_bind, mret, M_ret.
  rewrite driver_eq. destruct (next_fault w); [intros [= <- <-]; now left|].
  destruct (PostgresClient.Exec (db.TerminateBackends _) _) as [e0 w2] eqn:Hterm.
  apply Exec_cases in Hterm as [_ Hterm].
  assert (server w2 = server w) as Hs2.
  { destruct e0; [exact Hterm|]. cbn in Hterm. now injection Hterm as <-. }
  destruct (PostgresClient.Exec (db.DropDatabaseIfExists _) _) as [[msg|] w3] eqn:Hdb;
    apply Exec_cases in Hdb as [_ Hdb].
  { intros [= <- <-]. left. congruence. }
  cbn in Hdb. injection Hdb as Hdb.
  destruct (PostgresClient.Exec (db.DropUserIfExists _) _) as [[msg|] w4] eqn:Huser;
    apply Exec_cases in Huser as [_ Huser]; intros [= <- <-]; right.
  - rewrite Huser, <- Hdb, Hs2. reflexivity.
  - cbn in Huser. destruct (db.owns _ _); [discriminate|]. injection Huser as <-.
    rewrite <- Hdb, Hs2. reflexivity.
Qed.

Lemma deleteEach_live (records : list Database.t) :
  ∀ (deleted : list string) (w w' : World) (out : list string),
    Manager.deleteEach records deleted w = (out, w') →
    (∀ n, owners (server w) !! n = None → owners (server w') !! n = None)
    ∧ ∀ n, n ∈ out → n ∈ deleted ∨ owners (server w') !! n = None.
Proof.
  induction records as [|d rest IH]; intros deleted w w' out.
  - intros [= <- <-]. auto.
  - cbn [Manager.deleteEach]. unfold mbind, M_bind.
    destruct (PostgresClient.DropDatabase _ _ w) as [dropErr w1] eqn:Hdrop.
    assert (∀ n, owners (server w) !! n = None → owners (server w1) !! n = None) as Hmono.
    { intros n Hn. apply pg_DropDatabase_shrinks in Hdrop as [-> | ->]; [exact Hn|].
      rewrite lookup_delete. case_decide; [reflexivity | exact Hn]. }
    destruct dropErr as [msg|].
    + intros [Hkeep Hout]%IH. split; [auto|exact Hout].
    + apply pg_DropDatabase_server in Hdrop as (Howners & _).
      destruct (Store.DeleteDatabase _ w1) as [delErr w2] eqn:Hdel.
      apply Store_DeleteDatabase_frame in Hdel as (Hs2 & _).
      destruct delErr as [msg|]; intros [Hkeep Hout]%IH; rewrite Hs2 in Hkeep;
        (split; [auto|]); [exact Hout|].
      intros n [[Hn | ->%list_elem_of_singleton]%elem_of_app | Hn]%Hout; auto.
      right. apply Hkeep. rewrite Howners. apply lookup_delete_eq.
Qed.

(** X16. The names a cleanup run returns are gone from both sides: for
    every name of the list, no record of that name is left in the
    metadata and no database of that name is left on the server. *)
Theorem Cleanup_removed_everywhere
    (olderThan : Z) (w w' : World) (deleted : list string) (n : string) :
  Manager.Cleanup olderThan w = (Ok deleted, w') →
  n ∈ deleted →
  (∀ d, d ∈ databases (sqlite w') → Database.Name d ≠ n)
  ∧ owners (server w') !! n = None.
Proof.
  intros Hrun Hn. split.
  - destruct (Cleanup_rows olderThan w) as (cands & os & _ & _ & Hrows & Hdel).
    rewrite Hrun in Hrows, Hdel. cbn in Hrows, Hdel. rewrite <- (Hdel _ eq_refl) in Hrows.
    intros d. rewrite Hrows. intros [_ Hkept%bool_decide_eq_true_1]%elem_of_filter_bool Heq.
    apply Hkept. now rewrite Heq.
  - revert Hrun. unfold Manager.Cleanup, mbind, M_bind, mret, M_ret.
    rewrite GetExpiredDatabases_eq. destruct (next_fault w); [intros [=]|].
    rewrite GetDatabasesOlderThan_eq. destruct (next_fault _); [intros [=]|].
    destruct (Manager.deleteEach _ _ _) as [out w1] eqn:Hloop. intros [= -> ->].
    apply deleteEach_live in Hloop as [_ Hout].
    destruct (Hout n Hn) as [[]%elem_of_nil | Hgone]. exact Hgone.
Qed.

Lemma Cleanup_removed_everywhere_acme_pr :
  let run := Manager.Cleanup 5000 (Scenario.expired_pr []) in
  run.1 = Ok ["acme_pr_42"]
  ∧ (∀ d, d ∈ databases (sqlite run.2) → Database.Name d ≠ "acme_pr_42")
  ∧ owners (server run.2) !! "acme_pr_42" = None.
Proof.
  intros run. split; [vm_compute; reflexivity|].
  apply (Cleanup_removed_everywhere 5000 (Scenario.expired_pr []) run.2 ["acme_pr_42"]).
  - vm_compute; reflexivity.
  - apply elem_of_cons. now left.
Defined.

(** ** Names, numerals and tokens *)

Lemma string_forall_impl (p q : ascii → bool) (s : string) :
  (∀ c, p c = true → q c = true) → string_forall p s = true → string_forall q s = true.
Proof.
  intros Hpq. induction s as [|c s IH]; [reflexivity|]. cbn.
  intros [Hc Hs]%andb_prop. rewrite (Hpq c Hc). auto.
Qed.

Lemma app_cons (c : ascii) (s t : string) : String c s +:+ t = String c (s +:+ t).
Proof. reflexivity. Qed.

Lemma app_empty (t : string) : EmptyString +:+ t = t.
Proof. reflexivity. Qed.

Lemma digits_uint (u : Decimal.uint) :
  string_forall fmt.isDigit (NilEmpty.string_of_uint u) = true.
Proof. induction u; cbn [NilEmpty.string_of_uint string_forall]; auto. Qed.

Lemma acceptDigits_uint_acc (u : Decimal.uint) :
  ∀ acc, fmt.acceptDigits (Z.pos acc) (NilEmpty.string_of_uint u)
         = (Z.pos (Pos.of_uint_acc u acc), EmptyString).
Proof.
  induction u; intros acc; cbn [NilEmpty.string_of_uint fmt.acceptDigits Pos.of_uint_acc];
    [reflexivity|..];
    (replace (fmt.isDigit _) with true by reflexivity); cbv [fmt.digitVal];
    match goal with
    | |- fmt.acceptDigits ?z _ = (Z.pos (Pos.of_uint_acc _ ?p), _) =>
        replace z with (Z.pos p) by (cbn; lia)
    end; apply IHu.
Qed.

Lemma acceptDigits_uint (u : Decimal.uint) :
  fmt.acceptDigits 0 (NilEmpty.string_of_uint u) = (Z.of_N (Pos.of_uint u), EmptyString).
Proof.
  induction u; cbn [NilEmpty.string_of_uint fmt.acceptDigits Pos.of_uint];
    [reflexivity|..];
    (replace (fmt.isDigit _) with true by reflexivity); cbv [fmt.digitVal];
    [exact IHu|..];
    match goal with
    | |- fmt.acceptDigits ?z _ = (Z.of_N (N.pos (Pos.of_uint_acc _ ?p)), _) =>
        replace z with (Z.pos p) by (cbn; lia)
    end; apply acceptDigits_uint_acc.
Qed.

(** What [%d] prints for a number that is not negative: decimal digits,
    at least one, whose value is the number. *)
Lemma d_nonneg (n : Z) :
  (0 ≤ n)%Z →
  fmt.d n ≠ EmptyString ∧ string_forall fmt.isDigit (fmt.d n) = true
  ∧ fmt.acceptDigits 0 (fmt.d n) = (n, EmptyString).
Proof.
  intros Hn. destruct n as [|p|p]; [repeat split; discriminate| |lia].
  unfold fmt.d. cbn [Z.to_int NilZero.string_of_int].
  pose proof (Unsigned.to_uint_nonnil p) as Hnil.
  pose proof (DecimalPos.Unsigned.of_to p) as Hval.
  destruct (Pos.to_uint p) as [|u|u|u|u|u|u|u|u|u|u] eqn:Hu; [done|..];
    (split; [discriminate|]); (split; [apply digits_uint|]);
    cbv [NilZero.string_of_uint]; rewrite acceptDigits_uint, Hval; reflexivity.
Qed.

Lemma d_neg (p : positive) : fmt.d (Z.neg p) = String "-" (fmt.d (Z.pos p)).
Proof. reflexivity. Qed.

Lemma d_inj (n m : Z) : fmt.d n = fmt.d m → n = m.
Proof.
  intros Heq. rewrite <- (DecimalZ.of_to n), <- (DecimalZ.of_to m). f_equal.
  assert (∀ z, NilZero.int_of_string (fmt.d z) = Some (Z.to_int z)) as Hread.
  { intros z. apply NilZero.isi; destruct z; cbn; try discriminate;
      intros [= H]; exact (Unsigned.to_uint_nonnil _ H). }
  pose proof (Hread n) as Hn. rewrite Heq, Hread in Hn. congruence.
Qed.




Lemma d_chars (n : Z) : string_forall digit_or_minus (fmt.d n) = true.
Proof.
  assert (∀ m, (0 ≤ m)%Z → string_forall digit_or_minus (fmt.d m) = true) as Hpos.
  { intros m (_ & Hm & _)%d_nonneg. revert Hm. apply string_forall_impl.
    intros c Hc. unfold digit_or_minus. now rewrite Hc. }
  destruct n as [|p|p]; [reflexivity|apply Hpos; lia|].
  rewrite d_neg. cbn [string_forall]. rewrite Hpos by lia. reflexivity.
Qed.

Lemma digit_or_minus_no_underscore (c : ascii) :
  digit_or_minus c = true → no_underscore c = true.
Proof.
  destruct c as [[] [] [] [] [] [] [] []]; cbv; intros H;
    first [discriminate H | reflexivity].
Qed.

(** X17. [ParseEnv] reads back a printed PR environment: for every
    number [n] of an [int] that is not negative, the text [pr_]
    followed by the decimal form of [n] (what [%d] prints) is parsed as
    the environment [pr] with the number [n] and no error. *)
Theorem ParseEnv_reads_printed_env (n : Z) :
  (0 ≤ n ≤ fmt.maxInt64)%Z →
  project.ParseEnv ("pr_" +:+ fmt.d n) = ("pr", Some n, None).
Proof.
  intros [Hlo Hhi]. destruct (d_nonneg n Hlo) as (Hne & Hdigits & Hval).
  rewrite (ParseEnv_pr_numeral (fmt.d n) Hne Hdigits); rewrite Hval; [reflexivity|exact Hhi].
Qed.

Lemma ParseEnv_reads_printed_env_1234 :
  project.ParseEnv ("pr_" +:+ fmt.d 1234) = ("pr", Some 1234%Z, None).
Proof. apply (ParseEnv_reads_printed_env 1234). unfold fmt.maxInt64. lia. Defined.







Lemma underscore_in_middle (p t : string) :
  string_forall no_underscore (p +:+ String "_" t) = false.
Proof.
  induction p as [|c p IH]; [reflexivity|].
  rewrite app_cons. cbn [string_forall]. rewrite IH. apply andb_false_r.
Qed.

(** A name is cut at its last underscore in one way only. *)
Lemma last_segment (p1 : string) :
  ∀ p2 t1 t2,
    string_forall no_underscore t1 = true → string_forall no_underscore t2 = true →
    p1 +:+ String "_" t1 = p2 +:+ String "_" t2 → p1 = p2 ∧ t1 = t2.
Proof.
  induction p1 as [|c p1 IH]; intros [|c2 p2] t1 t2 H1 H2; rewrite ?app_cons, ?app_empty.
  - intros [= ->]. auto.
  - intros [= _ ->]. now rewrite underscore_in_middle in H1.
  - intros [= _ <-]. now rewrite underscore_in_middle in H2.
  - intros [= -> Heq]. destruct (IH p2 t1 t2 H1 H2 Heq) as [-> ->]. auto.
Qed.

Lemma string_app_assoc (a b c : string) : (a +:+ b) +:+ c = a +:+ (b +:+ c).
Proof. induction a as [|x a IH]; [reflexivity|]. rewrite !app_cons. now rewrite IH. Qed.

(** The two shapes of a database name: the project and the environment,
    or the project followed by [_pr] and the number. *)
Lemma DatabaseName_shape (p e : string) (n : option Z) :
  project.ValidateEnv e = None →
  ∃ q t, project.DatabaseName p e n = q +:+ String "_" t
         ∧ string_forall no_underscore t = true
         ∧ ((q = p ∧ t = e ∧ (e ≠ "pr" ∨ n = None))
            ∨ (∃ k, e = "pr" ∧ n = Some k ∧ q = p +:+ "_pr" ∧ t = fmt.d k)).
Proof.
  intros He%ValidateEnv_accepts. unfold project.DatabaseName.
  destruct (String.eqb_spec e "pr") as [-> | Hne].
  - destruct n as [k|].
    + exists (p +:+ "_pr"), (fmt.d k). split; [now rewrite string_app_assoc|].
      split; [|right; eauto].
      eapply string_forall_impl; [exact digit_or_minus_no_underscore | apply d_chars].
    + exists p, "pr". repeat split. tauto.
  - exists p, e. split; [reflexivity|]. split; [|left; auto].
    repeat (apply elem_of_cons in He as [-> | He]; [reflexivity|]).
    now apply elem_of_nil in He.
Qed.

Lemma d_is_no_env (e : string) (k : Z) : project.ValidateEnv e = None → e ≠ fmt.d k.
Proof.
  intros He%ValidateEnv_accepts ->. pose proof (d_chars k) as Hk.
  repeat (apply elem_of_cons in He as [He | He]; [rewrite He in Hk; discriminate Hk|]).
  now apply elem_of_nil in He.
Qed.

(** X19. Database names do not collide: two valid environments of any
    two projects get the same database name only when the projects and
    the environments are the same and, for a [pr] environment, the PR
    numbers are the same too. (For the other environments the name does
    not depend on the number.) *)
Theorem DatabaseName_injective (p1 e1 : string) (n1 : option Z)
    (p2 e2 : string) (n2 : option Z) :
  project.ValidateEnv e1 = None → project.ValidateEnv e2 = None →
  project.DatabaseName p1 e1 n1 = project.DatabaseName p2 e2 n2 →
  p1 = p2 ∧ e1 = e2 ∧ (e1 = "pr" → n1 = n2).
Proof.
  intros He1 He2 Heq.
  destruct (DatabaseName_shape p1 e1 n1 He1) as (q1 & t1 & Hn1 & Ht1 & Hcase1).
  destruct (DatabaseName_shape p2 e2 n2 He2) as (q2 & t2 & Hn2 & Ht2 & Hcase2).
  rewrite Hn1, Hn2 in Heq. apply last_segment in Heq as [Hq Ht]; [|assumption..].
  destruct Hcase1 as [(-> & -> & H1) | (k1 & -> & -> & -> & ->)],
           Hcase2 as [(-> & -> & H2) | (k2 & -> & -> & -> & ->)].
  - subst. repeat split. intros ->. destruct H1, H2; congruence.
  - now apply d_is_no_env in Ht.
  - symmetry in Ht. now apply d_is_no_env in Ht.
  - apply d_inj in Ht as ->.
    change (p1 +:+ "_pr") with (p1 +:+ String "_" "pr") in Hq.
    change (p2 +:+ "_pr") with (p2 +:+ String "_" "pr") in Hq.
    apply last_segment in Hq as [-> _]; auto.
Qed.

Lemma DatabaseName_injective_shop_dev :
  "shop" = "shop" ∧ "dev" = "dev" ∧ ("dev" = "pr" → Some 5%Z = None).
Proof.
  apply (DatabaseName_injective "shop" "dev" (Some 5%Z) "shop" "dev" None); reflexivity.
Defined.

Lemma HasPrefix_iff (prefix : string) :
  ∀ s, strings.HasPrefix s prefix = true ↔ ∃ t, s = prefix +:+ t.
Proof.
  unfold strings.HasPrefix. induction prefix as [|c prefix IH]; intros s.
  - destruct s; (split; [eauto|reflexivity]).
  - destruct s as [|a s]; cbn [String.prefix].
    + split; [discriminate|]. intros [t [=]].
    + destruct (ascii_dec c a) as [-> | Hne].
      * rewrite IH. split; intros [t Ht]; exists t.
        -- rewrite app_cons. congruence.
        -- rewrite app_cons in Ht. congruence.
      * split; [discriminate|]. intros [t Ht]. rewrite app_cons in Ht. congruence.
Qed.

Lemma from_app (prefix t : string) : strings.from (String.length prefix) (prefix +:+ t) = t.
Proof.
  induction prefix as [|c prefix IH]; [now destruct t|].
  rewrite app_cons. exact IH.
Qed.

Lemma TrimPrefix_app (prefix t : string) : strings.TrimPrefix (prefix +:+ t) prefix = t.
Proof.
  unfold strings.TrimPrefix.
  replace (strings.HasPrefix _ _) with true by (symmetry; apply HasPrefix_iff; eauto).
  apply from_app.
Qed.

Lemma lor_byte (a b : Z) : (0 ≤ a < 256 → 0 ≤ b < 256 → 0 ≤ Z.lor a b < 256)%Z.
Proof.
  intros Ha Hb. split; [apply Z.lor_nonneg; lia|].
  destruct (Z.eq_dec (Z.lor a b) 0) as [-> | Hne]; [lia|].
  assert (0 < Z.lor a b)%Z as Hpos by (pose proof (proj2 (Z.lor_nonneg a b)); lia).
  change 256%Z with (2 ^ 8)%Z. apply Z.log2_lt_pow2; [exact Hpos|].
  rewrite Z.log2_lor by lia.
  assert (∀ x, (0 ≤ x < 256)%Z → (Z.log2 x < 8)%Z) as Hlog.
  { intros x Hx. destruct (Z.eq_dec x 0) as [-> | Hx0]; [reflexivity|].
    apply Z.log2_lt_pow2; lia. }
  apply Z.max_lub_lt; auto.
Qed.

Lemma lxor_byte (a b : Z) : (0 ≤ a < 256 → 0 ≤ b < 256 → 0 ≤ Z.lxor a b < 256)%Z.
Proof.
  intros Ha Hb. split; [apply Z.lxor_nonneg; lia|].
  assert (0 ≤ Z.lxor a b)%Z as Hnn by (apply Z.lxor_nonneg; lia).
  destruct (Z.eq_dec (Z.lxor a b) 0) as [-> | Hne]; [lia|].
  change 256%Z with (2 ^ 8)%Z. apply Z.log2_lt_pow2; [lia|].
  pose proof (Z.log2_lxor a b ltac:(lia) ltac:(lia)) as Hle.
  assert (∀ x, (0 ≤ x < 256)%Z → (Z.log2 x < 8)%Z) as Hlog.
  { intros x Hx. destruct (Z.eq_dec x 0) as [-> | Hx0]; [reflexivity|].
    apply Z.log2_lt_pow2; lia. }
  pose proof (Hlog a Ha). pose proof (Hlog b Hb). lia.
Qed.

Lemma differences_spec (x : list Z) :
  ∀ y v, length x = length y → is_byte v → Forall is_byte x → Forall is_byte y →
         is_byte (subtle.differences v x y)
         ∧ (subtle.differences v x y = 0%Z ↔ v = 0%Z ∧ x = y).
Proof.
  unfold is_byte.
  induction x as [|a x IH]; intros [|b y] v Hlen Hv Hx Hy; try discriminate Hlen.
  - cbn. split; [exact Hv|]. tauto.
  - cbn [subtle.differences]. apply Forall_cons in Hx as [Ha Hx], Hy as [Hb Hy].
    pose proof (lxor_byte a b Ha Hb) as Hab.
    destruct (IH y (Z.lor v (Z.lxor a b)) ltac:(now injection Hlen)
                (lor_byte _ _ Hv Hab) Hx Hy) as [Hrange Hzero].
    split; [exact Hrange|]. rewrite Hzero, Z.lor_eq_0_iff, Z.lxor_eq_0_iff.
    split; [intros [[-> ->] ->]; auto | intros [-> [= -> ->]]; auto].
Qed.

Lemma ConstantTimeByteEq_zero (v : Z) :
  (0 ≤ v < 256)%Z → subtle.ConstantTimeByteEq v 0 = 1%Z ↔ v = 0%Z.
Proof.
  intros Hv. unfold subtle.ConstantTimeByteEq. rewrite Z.lxor_0_r.
  destruct (Z.eq_dec v 0) as [-> | Hne]; [split; reflexivity|].
  rewrite Z.mod_small by lia. rewrite Z.shiftr_div_pow2 by lia.
  rewrite Z.div_small by lia. split; [discriminate | tauto].
Qed.

Lemma bytes_are_bytes (s : string) : Forall is_byte (subtle.bytes s).
Proof.
  unfold subtle.bytes. apply Forall_fmap, Forall_forall. intros c _. unfold is_byte. cbn.
  pose proof (N_ascii_bounded c). lia.
Qed.

Lemma bytes_inj (a b : string) : subtle.bytes a = subtle.bytes b → a = b.
Proof.
  unfold subtle.bytes. intros Heq.
  rewrite <- (string_of_list_ascii_of_string a), <- (string_of_list_ascii_of_string b).
  f_equal. revert Heq. generalize (list_ascii_of_string a) (list_ascii_of_string b).
  intros la. induction la as [|x la IH]; intros [|y lb]; try discriminate; [reflexivity|].
  rewrite !fmap_cons. intros [= Hxy Hrest]. f_equal; [|auto].
  apply N2Z.inj in Hxy. rewrite <- (ascii_N_embedding x), <- (ascii_N_embedding y).
  now rewrite Hxy.
Qed.

(** [ConstantTimeCompare] on the bytes of two strings is their equality. *)
Lemma ConstantTimeCompare_bytes (a b : string) :
  subtle.ConstantTimeCompare (subtle.bytes a) (subtle.bytes b) = 1%Z ↔ a = b.
Proof.
  unfold subtle.ConstantTimeCompare.
  destruct (Nat.eqb_spec (length (subtle.bytes a)) (length (subtle.bytes b))) as [Hlen | Hlen];
    cbn [negb].
  - destruct (differences_spec _ _ 0%Z Hlen ltac:(unfold is_byte; lia)
                (bytes_are_bytes a) (bytes_are_bytes b)) as [Hrange Hzero].
    rewrite (ConstantTimeByteEq_zero _ Hrange), Hzero.
    split; [intros [_ H]; now apply bytes_inj | intros ->; auto].
  - split; [discriminate|]. intros ->. now destruct Hlen.
Qed.

(** X20. Who passes the middleware: a request is handed to the next
    handler exactly when its path is [/api/health], or its
    Authorization header is [Bearer ] followed by a token and either
    that token is the configured one, byte for byte, or no token is
    configured and none is required. In particular, with no token
    configured and none required, a request without the header is
    still refused. *)
Theorem authMiddleware_admits (api : APIConfig.t) (path authHeader : string) :
  Server.authMiddleware api path authHeader = Server.next ↔
  path = "/api/health"
  ∨ ∃ token, authHeader = "Bearer " +:+ token
             ∧ ((APIConfig.Token api ≠ EmptyString ∧ token = APIConfig.Token api)
                ∨ (APIConfig.Token api = EmptyString ∧ APIConfig.RequireToken api = false)).
Proof.
  unfold Server.authMiddleware.
  destruct (String.eqb_spec path "/api/health") as [-> | Hpath]; [tauto|].
  destruct (String.eqb_spec authHeader EmptyString) as [-> | Hheader].
  { split; [discriminate|]. intros [? | (token & [=] & _)]. done. }
  destruct (strings.HasPrefix authHeader "Bearer ") eqn:Hprefix; cbn [negb].
  2:{ split; [discriminate|]. intros [? | (token & -> & _)]; [done|].
      assert (strings.HasPrefix ("Bearer " +:+ token) "Bearer " = true) as Htrue
        by (apply HasPrefix_iff; eauto).
      congruence. }
  apply HasPrefix_iff in Hprefix as [token ->]. rewrite TrimPrefix_app.
  unfold Server.validateToken.
  destruct (String.eqb_spec (APIConfig.Token api) EmptyString) as [Hnone | Hsome].
  - destruct (APIConfig.RequireToken api).
    + split; [discriminate|]. intros [? | (t & _ & [[? _] | [_ [=]]])]; done.
    + split; [intros _; right; exists token; auto | reflexivity].
  - destruct (Z.eqb_spec (subtle.ConstantTimeCompare (subtle.bytes token)
                            (subtle.bytes (APIConfig.Token api))) 1) as [Heq | Hneq];
      cbn [negb].
    + apply ConstantTimeCompare_bytes in Heq.
      split; [intros _; right; exists token; auto | reflexivity].
    + split; [discriminate|]. intros [? | (t & Ht & [[_ ->] | [? _]])]; [done| |done].
      apply (f_equal (λ s, strings.TrimPrefix s "Bearer ")) in Ht.
      rewrite !TrimPrefix_app in Ht. destruct Hneq. now apply ConstantTimeCompare_bytes.
Qed.

(** ** Listings *)













(** ** Failed calls *)

Lemma Store_DeleteProject_failed (name : string) (w w' : World) (e : string) :
  Store.DeleteProject name w = (Err e, w') → sqlite w' = sqlite w.
Proof.
  unfold Store.DeleteProject, mbind, M_bind, mret, M_ret.
  rewrite GetProject_eq. destruct (next_fault w); [intros [= _ <-]; reflexivity|].
  destruct (List.find _ _); [|intros [= _ <-]; reflexivity].
  rewrite ListDatabases_eq. destruct (next_fault _); [intros [= _ <-]; reflexivity|].
  rewrite driver_eq. destruct (next_fault _); [intros [= _ <-]; reflexivity|].
  intros [=].
Qed.

(** X23. A call that fails records nothing: when [CreateDatabase],
    [DeleteDatabase], [CreateProject] or [DeleteProject] returns an
    error, the rows of the metadata are the rows of before the call,
    whatever step failed. *)
Theorem failed_call_records_nothing
    (cfg : Config.t) (rnd : db.RandRead) (name env : string) (prNumber : option Z)
    (w : World) :
  let same (w' : World) :=
    projects (sqlite w') = projects (sqlite w)
    ∧ databases (sqlite w') = databases (sqlite w) in
  (is_err (Manager.CreateDatabase cfg rnd name env prNumber w).1 = true →
   same (Manager.CreateDatabase cfg rnd name env prNumber w).2)
  ∧ ((Manager.DeleteDatabase name env prNumber w).1 ≠ None →
     same (Manager.DeleteDatabase name env prNumber w).2)
  ∧ ((Manager.CreateProject name w).1 ≠ None → same (Manager.CreateProject name w).2)
  ∧ ((Manager.DeleteProject name w).1 ≠ None → same (Manager.DeleteProject name w).2).
Proof.
  intros same. subst same. cbn beta. split; [|split; [|split]].
  - destruct (Manager.CreateDatabase cfg rnd name env prNumber w) as [r w'] eqn:Hrun.
    cbn. intros Herr. revert Hrun. unfold Manager.CreateDatabase.
    destruct (project.ValidateEnv env); [intros [= <- <-]; auto|].
    destruct (_ && _); [intros [= <- <-]; auto|].
    unfold mbind, M_bind, mret, M_ret, time_Now.
    rewrite GetProject_eq. destruct (next_fault w); [intros [= <- <-]; auto|].
    destruct (List.find _ (projects _)); [|intros [= <- <-]; auto].
    rewrite GetDatabase_eq. destruct (next_fault _); [intros [= <- <-]; auto|].
    destruct (List.find _ (databases _)); [intros [= <- <-]; auto|].
    destruct (PostgresClient.CreateDatabase _ _ _ _) as [[e|] w2] eqn:Hpg;
      apply pg_CreateDatabase_frame in Hpg as (Hs2 & _).
    { intros [= <- <-]. rewrite Hs2. auto. }
    destruct (Store.CreateDatabase _ _ _ _ _ _ _ _) as [[row|e] w3] eqn:Hst;
      apply Store_CreateDatabase_frame in Hst as (_ & _ & _ & Hs3).
    { intros [= <- <-]. discriminate Herr. }
    destruct (PostgresClient.DropDatabase _ _ _) as [dropErr w4] eqn:Hdrop.
    apply pg_DropDatabase_frame in Hdrop as (Hs4 & _).
    intros [= <- <-]. rewrite Hs4, Hs3, Hs2. auto.
  - destruct (Manager.DeleteDatabase name env prNumber w) as [r w'] eqn:Hrun.
    cbn. intros Herr. revert Hrun. unfold Manager.DeleteDatabase.
    destruct (project.ValidateEnv env); [intros [= <- <-]; auto|].
    unfold mbind, M_bind, mret, M_ret.
    rewrite GetProject_eq. destruct (next_fault w); [intros [= <- <-]; auto|].
    destruct (List.find _ (projects _)); [|intros [= <- <-]; auto].
    rewrite GetDatabase_eq. destruct (next_fault _); [intros [= <- <-]; auto|].
    destruct (List.find _ (databases _)); [|intros [= <- <-]; auto].
    destruct (PostgresClient.DropDatabase _ _ _) as [[e|] w2] eqn:Hdrop;
      apply pg_DropDatabase_frame in Hdrop as (Hs2 & _).
    { intros [= <- <-]. rewrite Hs2. auto. }
    destruct (Store.DeleteDatabase _ _) as [[e|] w3] eqn:Hdel;
      apply Store_DeleteDatabase_frame in Hdel as (_ & _ & _ & Hp3 & Hd3).
    { intros [= <- <-]. cbn in Hd3. rewrite Hp3, Hd3, Hs2. auto. }
    intros [= <- <-]. now destruct Herr.
  - destruct (Manager.CreateProject name w) as [r w'] eqn:Hrun.
    cbn. intros Herr. revert Hrun. unfold Manager.CreateProject.
    destruct (project.ValidateName name); [intros [= <- <-]; auto|].
    unfold mbind, M_bind, mret, M_ret.
    rewrite GetProject_eq. destruct (next_fault w); [intros [= <- <-]; auto|].
    destruct (List.find _ (projects _)); [intros [= <- <-]; auto|].
    destruct (Store.CreateProject _ _) as [[row|e] w2] eqn:Hst;
      apply Store_CreateProject_frame in Hst as (_ & _ & _ & _ & Hs2).
    { intros [= <- <-]. now destruct Herr. }
    intros [= <- <-]. rewrite Hs2. auto.
  - destruct (Manager.DeleteProject name w) as [r w'] eqn:Hrun.
    cbn. intros Herr. revert Hrun. unfold Manager.DeleteProject.
    unfold mbind, M_bind, mret, M_ret.
    destruct (Store.DeleteProject name w) as [[rows|e] w2] eqn:Hst.
    { destruct (Manager.dropEach rows w2). intros [= <- <-]. now destruct Herr. }
    apply Store_DeleteProject_failed in Hst. intros [= <- <-]. rewrite Hst. auto.
Qed.

Lemma failed_call_records_nothing_insert_fails :
  let run := Manager.CreateDatabase Scenario.cfg Scenario.rnd "acme" "pr" (Some 42%Z)
               Scenario.insert_fails in
  is_err run.1 = true
  ∧ projects (sqlite run.2) = projects (sqlite Scenario.insert_fails)
  ∧ databases (sqlite run.2) = databases (sqlite Scenario.insert_fails).
Proof.
  intros run. split; [vm_compute; reflexivity|].
  exact (proj1 (failed_call_records_nothing Scenario.cfg Scenario.rnd "acme" "pr"
                  (Some 42%Z) Scenario.insert_fails) eq_refl).
Defined.
